(** * Kodo: container and pod lifecycle utilities

    A shallow embedding of [src/kodo/core.py] (classes [ProxyManager],
    [ContainerUtils], [DockerManager] and [KubernetesManager]) and the
    properties of it that the specification states.

    Conventions of the embedding:
    - a Python [dict] keyed by strings is a [gmap string _];
    - a Python [int] is a [Z]; [str(n)] and an f-string field [{n}] are
      stdpp's [pretty];
    - a method that mutates [self], the process environment or the external
      engine is a function in the state-and-exception monad [M];
    - the external clients (the docker SDK and the kubernetes client) are
      opaque services: they are the operations of the type classes
      [DockerClient] and [CoreV1Api], over an arbitrary engine state;
    - every call the code issues to such a service is appended to a trace,
      so that statements about "which calls were made" are statements about
      that trace. *)

From Stdlib Require Import ZArith NArith QArith Ascii.
From stdpp Require Import gmap strings list pretty fin_maps.

Local Open Scope string_scope.
Local Open Scope Z_scope.
Local Open Scope list_scope.
Local Open Scope stdpp_scope.

(** ** Exceptions and the state-and-exception monad *)

(** Exceptions raised by the libraries the module calls.  Each carries the
    text that [repr(e)] gives for it. *)
Inductive lib_exn : Type :=
  | ApiException (status : Z) (descr : string)
      (* kubernetes.client.ApiException, with its HTTP status *)
  | FuturesTimeoutError (descr : string)
      (* concurrent.futures.TimeoutError *)
  | OtherException (descr : string).
      (* any other subclass of Exception *)

Definition repr (e : lib_exn) : string :=
  match e with
  | ApiException _ d => d
  | FuturesTimeoutError d => d
  | OtherException d => d
  end.

(** Exceptions that leave a method of this module: a library exception
    that was not handled, or a [RuntimeError] the module raises itself. *)
Inductive exn : Type :=
  | LibExn (e : lib_exn)
  | RuntimeError (msg : string).

Inductive res (X A : Type) : Type :=
  | Ok (a : A)
  | Raise (e : X).
Arguments Ok {X A} a.
Arguments Raise {X A} e.

(** What a library call answers: a value, or an exception of the library. *)
Abbreviation answer A := (res lib_exn A).

(** Computations over a state [S] that return a value or raise an exception
    of type [X]. *)
Definition M (X S A : Type) : Type := S -> S * res X A.

Definition ret {X S A} (a : A) : M X S A := fun s => (s, Ok a).
Definition raise {X S A} (e : X) : M X S A := fun s => (s, Raise e).
Definition bind {X S A B} (m : M X S A) (k : A -> M X S B) : M X S B :=
  fun s =>
    match m s with
    | (s', Ok a) => k a s'
    | (s', Raise e) => (s', Raise e)
    end.
Definition get {X S} : M X S S := fun s => (s, Ok s).
Definition modify {X S} (f : S -> S) : M X S unit := fun s => (f s, Ok tt).

(** [try: m  except Exception as e: h e]. *)
Definition try_except {X Y S A} (m : M X S A) (h : X -> M Y S A) : M Y S A :=
  fun s =>
    match m s with
    | (s', Ok a) => (s', Ok a)
    | (s', Raise e) => h e s'
    end.

Declare Scope py_scope.
Delimit Scope py_scope with py.
Notation "x <- c1 ;; c2" := (bind c1 (fun x => c2))
  (at level 100, c1 at next level, right associativity) : py_scope.
Notation "c1 ;;; c2" := (bind c1 (fun _ => c2))
  (at level 100, right associativity) : py_scope.

(** ** Constants *)

Definition DEFAULT_NAMESPACE : string := "default".
Definition DEFAULT_DOCKER_PATH : string :=
  "/root/.venv/bin:/root/.local/bin:/root/.cargo/bin:/usr/local/sbin:/usr/local/bin:/usr/sbin:/usr/bin:/sbin:/bin".
Definition DEFAULT_TIMEOUT : Z := 300.

(** ** ProxyManager *)

(** A [Dict[str, str]]: [os.environ], an environment mapping. *)
Abbreviation strdict := (gmap string string).

Record ProxyManager : Type := mkProxyManager {
  disable_proxy : bool;
  original_proxy_settings : gmap string string;
  proxy_disabled : bool
}.

Definition ProxyManager_init (disable_proxy : bool) : ProxyManager :=
  {| disable_proxy := disable_proxy;
     original_proxy_settings := ∅;
     proxy_disabled := false |}.

Definition proxy_vars : list string :=
  ["http_proxy"; "https_proxy"; "HTTP_PROXY"; "HTTPS_PROXY";
   "ftp_proxy"; "FTP_PROXY"; "no_proxy"; "NO_PROXY"].

(** One round of the loop of [_disable_proxy]: the pair is
    [(self.original_proxy_settings, os.environ)]. *)
Definition capture_var (acc : gmap string string * strdict) (var : string)
  : gmap string string * strdict :=
  match acc.2 !! var with
  | Some value => (<[var := value]> acc.1, delete var acc.2)
  | None => acc
  end.

Definition _disable_proxy (self : ProxyManager) (environ : strdict)
  : ProxyManager * strdict :=
  let acc := foldl capture_var (original_proxy_settings self, environ) proxy_vars in
  ({| disable_proxy := disable_proxy self;
      original_proxy_settings := acc.1;
      proxy_disabled := true |}, acc.2).

Definition _restore_proxy (self : ProxyManager) (environ : strdict)
  : ProxyManager * strdict :=
  let saved := original_proxy_settings self in
  if decide (saved = ∅) then
    ({| disable_proxy := disable_proxy self;
        original_proxy_settings := saved;
        proxy_disabled := false |}, environ)
  else
    ({| disable_proxy := disable_proxy self;
        original_proxy_settings := ∅;
        proxy_disabled := false |},
     map_fold (fun var value env => <[var := value]> env) environ saved).

Definition ProxyManager_enter (self : ProxyManager) (environ : strdict)
  : ProxyManager * strdict :=
  if disable_proxy self then _disable_proxy self environ else (self, environ).

Definition ProxyManager_exit (self : ProxyManager) (environ : strdict)
  : ProxyManager * strdict :=
  if proxy_disabled self then _restore_proxy self environ else (self, environ).

(** States that hold the process environment. *)
Class HasEnviron (S : Type) : Type := {
  get_environ : S -> strdict;
  set_environ : strdict -> S -> S
}.

#[global] Instance environ_HasEnviron : HasEnviron strdict :=
  {| get_environ := fun env => env; set_environ := fun env _ => env |}.

(** [with ProxyManager(disable_proxy=flag): body].  [__exit__] runs whether
    the body returns or raises, and returns [None], so an exception of the
    body goes on to the caller. *)
Definition with_ProxyManager {X S A} `{HasEnviron S}
    (flag : bool) (body : M X S A) : M X S A :=
  fun s =>
    let pm := ProxyManager_init flag in
    let entered := ProxyManager_enter pm (get_environ s) in
    let '(s', r) := body (set_environ entered.2 s) in
    let exited := ProxyManager_exit entered.1 (get_environ s') in
    (set_environ exited.2 s', r).

(** The environment the body of the scope starts in. *)
Definition scope_entry_environ (flag : bool) (environ : strdict) : strdict :=
  (ProxyManager_enter (ProxyManager_init flag) environ).2.

(** ** Text helpers *)

(** [s.replace(a, b)] for one-character [a] and [b]. *)
Fixpoint str_replace (a b : ascii) (s : string) : string :=
  match s with
  | EmptyString => EmptyString
  | String c s' => String (if Ascii.eqb c a then b else c) (str_replace a b s')
  end.

(** The slice [s[:n]]. *)
Fixpoint str_take (n : nat) (s : string) : string :=
  match n, s with
  | S n', String c s' => String c (str_take n' s')
  | _, _ => EmptyString
  end.

(** [str(x)] of an [int] that may be [None]. *)
Definition str_optint (x : option Z) : string :=
  match x with
  | Some n => pretty n
  | None => "None"
  end.

(** *** The substitution [re.sub(r"\x1b\[[0-9;]*m|\r", "", output)]

    The characters [0-9;] of the starred class never match [m], so the
    first alternative matches at a position exactly when the longest run of
    class characters after [ESC \[] is followed by [m].  The two
    alternatives start with different characters.  [re.sub] replaces the
    leftmost matches, left to right, without overlap. *)

Definition ESC : ascii := "027"%char.
Definition CR : ascii := "013"%char.

Definition is_sgr_param (c : ascii) : bool :=
  let n := N_of_ascii c in
  ((48 <=? n)%N && (n <=? 57)%N) || Ascii.eqb c ";"%char.

(** After [ESC \[]: the number of characters up to and including the
    closing [m], when the text goes on with [[0-9;]*m]. *)
Fixpoint sgr_tail (s : string) : option nat :=
  match s with
  | EmptyString => None
  | String c s' =>
      if is_sgr_param c then S <$> sgr_tail s'
      else if Ascii.eqb c "m"%char then Some 1%nat
      else None
  end.

(** The length of the match of the pattern at the start of [s]. *)
Definition ansi_match (s : string) : option nat :=
  match s with
  | EmptyString => None
  | String c s' =>
      if Ascii.eqb c ESC then
        match s' with
        | String c' s'' =>
            if Ascii.eqb c' "["%char then (fun n => S (S n)) <$> sgr_tail s'' else None
        | EmptyString => None
        end
      else if Ascii.eqb c CR then Some 1%nat
      else None
  end.

(** [skip] is the number of characters still to drop of a match found
    earlier. *)
Fixpoint ansi_sub_from (skip : nat) (s : string) : string :=
  match s with
  | EmptyString => EmptyString
  | String c s' =>
      match skip with
      | S k => ansi_sub_from k s'
      | O =>
          match ansi_match s with
          | Some (S k) => ansi_sub_from k s'
          | _ => String c (ansi_sub_from 0 s')
          end
      end
  end.

Definition strip_ansi (output : string) : string := ansi_sub_from 0 output.

(** ** SHA-256 ([hashlib.sha256], FIPS 180-4), on 32-bit words held in [N] *)

Definition w32 (x : N) : N := (x mod 2 ^ 32)%N.
Definition add32 (x y : N) : N := w32 (x + y).
Definition rotr (n x : N) : N :=
  N.lor (N.shiftr x n) (w32 (N.shiftl x (32 - n))).
Definition not32 (x : N) : N := N.lxor x 0xffffffff%N.

Definition Ch (x y z : N) : N := N.lxor (N.land x y) (N.land (not32 x) z).
Definition Maj (x y z : N) : N :=
  N.lxor (N.lxor (N.land x y) (N.land x z)) (N.land y z).
Definition Sigma0 (x : N) : N := N.lxor (N.lxor (rotr 2 x) (rotr 13 x)) (rotr 22 x).
Definition Sigma1 (x : N) : N := N.lxor (N.lxor (rotr 6 x) (rotr 11 x)) (rotr 25 x).
Definition sigma0 (x : N) : N := N.lxor (N.lxor (rotr 7 x) (rotr 18 x)) (N.shiftr x 3).
Definition sigma1 (x : N) : N := N.lxor (N.lxor (rotr 17 x) (rotr 19 x)) (N.shiftr x 10).

(** The constants of FIPS 180-4 are derived as the standard defines them:
    from the first 64 prime numbers, the first 32 bits of the fractional
    parts of their cube roots (round constants) and, for the first eight, of
    their square roots (initial hash value). *)
Definition is_prime (n : nat) : bool :=
  forallb (fun d => negb (n mod d =? 0)%nat) (seq 2 (n - 2)).

Definition first_primes : list N :=
  Eval vm_compute in (N.of_nat <$> List.filter is_prime (seq 2 310)).

(** The integer cube root, bit by bit from the top. *)
Definition icbrt_step (n r : N) (i : nat) : N :=
  let r' := (r + 2 ^ N.of_nat i)%N in
  if (r' * r' * r' <=? n)%N then r' else r.

Definition icbrt (bits : nat) (n : N) : N :=
  foldl (icbrt_step n) 0%N (reverse (seq 0 bits)).

Definition sha256_K : list N :=
  Eval vm_compute in
    ((fun p => (icbrt 36 (p * 2 ^ 96) mod 2 ^ 32)%N) <$> first_primes).

Definition sha256_H0_words : list N :=
  Eval vm_compute in
    ((fun p => (N.sqrt (p * 2 ^ 64) mod 2 ^ 32)%N) <$> take 8 first_primes).

(** The eight working variables, and the hash value. *)
Record sha_state : Type := mkSha {
  sa : N; sb : N; sc : N; sd : N; se : N; sf : N; sg : N; sh : N
}.

Definition sha256_H0 : sha_state :=
  let word i := nth i sha256_H0_words 0%N in
  mkSha (word 0%nat) (word 1%nat) (word 2%nat) (word 3%nat)
        (word 4%nat) (word 5%nat) (word 6%nat) (word 7%nat).

(** Padding: the byte 0x80, zero bytes up to 56 modulo 64, and the length
    of the message in bits on eight bytes, most significant first. *)
Definition be_bytes (count : nat) (x : N) : list N :=
  (fun i => (N.shiftr x (8 * N.of_nat i) mod 256)%N) <$> reverse (seq 0 count).

Definition sha256_pad (msg : list N) : list N :=
  let len := length msg in
  let zeros := ((64 - (len + 9) mod 64) mod 64)%nat in
  msg ++ [0x80%N] ++ replicate zeros 0%N ++ be_bytes 8 (8 * N.of_nat len).

Definition be_word (bs : list N) : N :=
  foldl (fun acc b => (acc * 256 + b)%N) 0%N bs.

(** [count] words of four bytes each. *)
Fixpoint words_of (count : nat) (bs : list N) : list N :=
  match count with
  | O => []
  | S n => be_word (take 4 bs) :: words_of n (drop 4 bs)
  end.

Definition sha256_schedule (block : list N) : list N :=
  foldl (fun w t =>
           w ++ [add32 (add32 (sigma1 (nth (t - 2) w 0%N)) (nth (t - 7) w 0%N))
                       (add32 (sigma0 (nth (t - 15) w 0%N)) (nth (t - 16) w 0%N))])
        block (seq 16 48).

Definition sha256_round (s : sha_state) (kw : N * N) : sha_state :=
  let t1 := add32 (add32 (add32 (sh s) (Sigma1 (se s))) (Ch (se s) (sf s) (sg s)))
                  (add32 kw.1 kw.2) in
  let t2 := add32 (Sigma0 (sa s)) (Maj (sa s) (sb s) (sc s)) in
  mkSha (add32 t1 t2) (sa s) (sb s) (sc s) (add32 (sd s) t1) (se s) (sf s) (sg s).

Definition sha256_compress (h : sha_state) (block : list N) : sha_state :=
  let s := foldl sha256_round h (zip sha256_K (sha256_schedule block)) in
  mkSha (add32 (sa h) (sa s)) (add32 (sb h) (sb s)) (add32 (sc h) (sc s))
        (add32 (sd h) (sd s)) (add32 (se h) (se s)) (add32 (sf h) (sf s))
        (add32 (sg h) (sg s)) (add32 (sh h) (sh s)).

Fixpoint sha256_blocks (count : nat) (h : sha_state) (bs : list N) : sha_state :=
  match count with
  | O => h
  | S n => sha256_blocks n (sha256_compress h (words_of 16 (take 64 bs))) (drop 64 bs)
  end.

Definition sha256 (msg : list N) : sha_state :=
  let padded := sha256_pad msg in
  sha256_blocks (length padded / 64) sha256_H0 padded.

Definition hex_digit (x : N) : ascii :=
  if (x <? 10)%N then ascii_of_N (48 + x) else ascii_of_N (87 + x).

(** Eight lower-case hexadecimal digits of a word. *)
Definition hex8 (w : N) : string :=
  String.string_of_list_ascii
    ((fun i => hex_digit (N.shiftr w (4 * N.of_nat i) mod 16)%N) <$> reverse (seq 0 8)).

Definition hexdigest (h : sha_state) : string :=
  hex8 (sa h) +:+ hex8 (sb h) +:+ hex8 (sc h) +:+ hex8 (sd h) +:+
  hex8 (se h) +:+ hex8 (sf h) +:+ hex8 (sg h) +:+ hex8 (sh h).

(** [s.encode()]: the text is held as its UTF-8 bytes. *)
Definition encode (s : string) : list N := N_of_ascii <$> String.list_ascii_of_string s.

(** ** ContainerUtils *)

(** [get_container_name]: [process_id] is what [os.getpid()] answers and
    [current_time] what [str(datetime.datetime.now())] gives. *)
Definition get_container_name (process_id : Z) (current_time : string)
    (image_name : string) : string :=
  let process_id := pretty process_id in
  let unique_string := current_time +:+ process_id in
  let hash_object := sha256 (encode unique_string) in
  let image_name_sanitized :=
    str_replace ":"%char "-"%char (str_replace "/"%char "-"%char image_name) in
  image_name_sanitized +:+ "-" +:+ str_take 10 (hexdigest hash_object).

(** ** The world of the local backend

    The docker daemon as the SDK shows it, the process id and the clock,
    over an engine state [E]; [C] is the type of container handles. *)
Class DockerClient (E C : Type) : Type := {
  os_getpid : E -> Z;
  datetime_now : E -> E * string;
  (* client.containers.list(all=True, filters={"name": name}) *)
  containers_list : string -> E -> E * answer (list C);
  (* client.containers.run(image, command, name=, detach=True, tty=True,
     stdin_open=True, environment=) *)
  containers_run : string -> string -> string -> strdict -> E -> E * answer C;
  container_status : C -> string;
  container_start : C -> E -> E * answer unit;
  container_stop : C -> E -> E * answer unit;
  container_remove : C -> E -> E * answer unit;
  (* container.exec_run(cmd=, workdir=, stdout=True, stderr=True,
     environment=) submitted to a worker and awaited for the given number of
     seconds: the decoded output and the exit code, or the exception of the
     call, or FuturesTimeoutError when the wait expires *)
  container_exec_run :
    C -> list string -> option string -> strdict -> Z -> E ->
    E * answer (string * option Z);
  (* client.close() *)
  client_close : E -> E * answer unit
}.

(** The calls issued to the SDK. *)
Inductive docker_call (C : Type) : Type :=
  | ContainersList (name : string)
  | ContainersRun (image command name : string) (env : strdict)
  | ContainerStart (c : C)
  | ContainerStop (c : C)
  | ContainerRemove (c : C)
  | ContainerExecRun (c : C) (cmd : list string) (workdir : option string)
      (env : strdict) (wait : Z)
  | ClientClose.
Arguments ContainersList {C} name.
Arguments ContainersRun {C} image command name env.
Arguments ContainerStart {C} c.
Arguments ContainerStop {C} c.
Arguments ContainerRemove {C} c.
Arguments ContainerExecRun {C} c cmd workdir env wait.
Arguments ClientClose {C}.

(** ** DockerManager *)

Record DockerManager (E C : Type) : Type := mkDockerManager {
  dm_client : E;                       (* self.client, and the world behind it *)
  dm_containers : gmap string C;       (* self.containers *)
  dm_calls : list (docker_call C);     (* the calls issued so far *)
  dm_stdout : list string              (* the lines printed so far *)
}.
Arguments mkDockerManager {E C} _ _ _ _.
Arguments dm_client {E C} _.
Arguments dm_containers {E C} _.
Arguments dm_calls {E C} _.
Arguments dm_stdout {E C} _.

Definition dm_set_containers {E C} (f : gmap string C -> gmap string C)
    (s : DockerManager E C) : DockerManager E C :=
  mkDockerManager (dm_client s) (f (dm_containers s)) (dm_calls s) (dm_stdout s).

Definition dm_print {E C X} (line : string) : M X (DockerManager E C) unit :=
  modify (fun s => mkDockerManager (dm_client s) (dm_containers s) (dm_calls s)
                     (dm_stdout s ++ [line])).

(** A call to the SDK: it is logged, the engine moves, and a library
    exception is raised in the monad. *)
Definition dm_call {E C A} (call : docker_call C) (op : E -> E * answer A)
  : M lib_exn (DockerManager E C) A :=
  fun s =>
    let '(e, r) := op (dm_client s) in
    (mkDockerManager e (dm_containers s) (dm_calls s ++ [call]) (dm_stdout s), r).

(** The clock is read without a call to the SDK. *)
Definition dm_now {E C X} `{DockerClient E C} : M X (DockerManager E C) string :=
  fun s =>
    let '(e, t) := datetime_now (dm_client s) in
    (mkDockerManager e (dm_containers s) (dm_calls s) (dm_stdout s), Ok t).

Section DockerManager.
Context {E C : Type} `{DockerClient E C}.
Local Open Scope py_scope.

(** [start_container(image, command, name, environment)]; no further keyword
    arguments are passed on to [run]. *)
Definition DockerManager_start_container
    (image : string) (command : string) (name : option string)
    (environment : option strdict)
  : M lib_exn (DockerManager E C) C :=
  name <- match name with
          | Some name => ret name
          | None =>
              s <- get ;;
              current_time <- dm_now ;;
              ret (get_container_name (os_getpid (dm_client s)) current_time image)
          end ;;
  try_except
    (containers <- dm_call (ContainersList name) (containers_list name) ;;
     container <-
       match containers with
       | container :: _ =>
           (if negb (String.eqb (container_status container) "running")
            then dm_call (ContainerStart container) (container_start container)
            else ret tt) ;;;
           ret container
       | [] =>
           let env : strdict := {[ "PATH" := DEFAULT_DOCKER_PATH ]} in
           let env :=
             match environment with
             | Some environment =>
                 if decide (environment = ∅) then env else environment ∪ env
             | None => env
             end in
           dm_call (ContainersRun image command name env)
                   (containers_run image command name env)
       end ;;
     modify (dm_set_containers (<[name := container]>)) ;;;
     ret container)
    (fun e =>
       dm_print ("Container start error: " +:+ repr e) ;;;
       raise e).

(** [stop_container(container_name)]: every exception is printed and
    swallowed. *)
Definition DockerManager_stop_container (container_name : string)
  : M lib_exn (DockerManager E C) unit :=
  try_except
    (s <- get ;;
     match dm_containers s !! container_name with
     | Some container =>
         dm_call (ContainerStop container) (container_stop container) ;;;
         dm_call (ContainerRemove container) (container_remove container) ;;;
         modify (dm_set_containers (delete container_name))
     | None => ret tt
     end)
    (fun e => dm_print ("Container stop/delete error: " +:+ repr e)).

(** The pair a command execution returns; shared by the two backends, which
    spell the same three tests on the exit code. *)
Definition timed_out_result (timeout : Z) : string * string :=
  ("Command timed out (>" +:+ pretty timeout +:+ "s)", "-1").

(** [execute_command(container, command, timeout, workdir)]. *)
Definition DockerManager_execute_command
    (container : C) (command : string) (timeout : Z) (workdir : option string)
  : M lib_exn (DockerManager E C) (string * string) :=
  let full_command := command in
  try_except
    (exec_result <-
       dm_call (ContainerExecRun container ["/bin/sh"; "-c"; full_command] workdir
                  {[ "PATH" := DEFAULT_DOCKER_PATH ]} (timeout + 5))
               (container_exec_run container ["/bin/sh"; "-c"; full_command] workdir
                  {[ "PATH" := DEFAULT_DOCKER_PATH ]} (timeout + 5)) ;;
     let output := exec_result.1 in
     let exit_code := exec_result.2 in
     if decide (exit_code = Some 124) then
       ret (timed_out_result timeout)
     else if decide (exit_code <> Some 0) then
       ret (output, "Error: Exit code " +:+ str_optint exit_code)
     else
       let output := strip_ansi output in
       ret (output, str_optint exit_code))
    (fun e =>
       match e with
       | FuturesTimeoutError _ => ret (timed_out_result timeout)
       | _ => ret ("Error: " +:+ repr e, "-1")
       end).

(** [close()]: the names are those registered when the method starts; each
    is handed to [stop_container], then the client is closed, outside any
    [try]. *)
Definition DockerManager_close : M lib_exn (DockerManager E C) unit :=
  s <- get ;;
  foldr (fun container_name rest => DockerManager_stop_container container_name ;;; rest)
        (ret tt) (fst <$> map_to_list (dm_containers s)) ;;;
  dm_call ClientClose client_close.

End DockerManager.

(** ** The declarative pod specification *)

Record toleration : Type := mkToleration {
  tol_effect : string; tol_key : string; tol_operator : string; tol_value : string
}.

Record container_spec : Type := mkContainerSpec {
  cs_name : string;
  cs_image : string;
  cs_command : list string;
  cs_args : list string;
  cs_stdin : bool;
  cs_tty : bool;
  cs_env : list (string * string);            (* the entries name/value *)
  cs_resources : gmap string (gmap string string)
}.

Record pod_spec : Type := mkPodSpec {
  ps_restartPolicy : string;
  ps_containers : list container_spec;
  ps_tolerations : list toleration;
  ps_nodeSelector : option strdict            (* the key is absent when None *)
}.

Record pod_manifest : Type := mkPodManifest {
  pm_apiVersion : string;
  pm_kind : string;
  pm_metadata_name : string;
  pm_spec : pod_spec
}.

(** ** The world of the cluster backend

    The API server as the kubernetes client shows it and the clock, over an
    engine state [E]; [P] is the type of pod objects ([V1Pod]). *)
Class CoreV1Api (E P : Type) : Type := {
  time_time : E -> E * Q;
  (* read_namespaced_pod(name=, namespace=, _request_timeout=60) *)
  read_namespaced_pod : string -> string -> E -> E * answer P;
  (* create_namespaced_pod(namespace=, body=, _request_timeout=120) *)
  create_namespaced_pod : string -> pod_manifest -> E -> E * answer P;
  (* delete_namespaced_pod(name=, namespace=,
     body=V1DeleteOptions(grace_period_seconds=), _request_timeout=60) *)
  delete_namespaced_pod : string -> string -> Z -> E -> E * answer unit;
  (* Watch().stream(list_namespaced_pod, namespace=, field_selector=,
     timeout_seconds=): the phases of the events the generator yields, in
     order, and how it ends after them: exhausted (None) or by raising *)
  watch_stream : string -> string -> Z -> E -> E * (list string * option lib_exn);
  (* the function execute of execute_command, submitted to a worker and
     awaited for the given number of seconds: what each round of the polling
     loop finds on stdout and on stderr, and the return code; or the
     exception of the call, or FuturesTimeoutError when the wait expires *)
  pod_exec :
    string -> string -> list string -> Z -> E ->
    E * answer (list (string * string) * option Z)
}.

(** The calls issued to the client, and the sleeps between them. *)
Inductive k8s_call : Type :=
  | ReadPod (name namespace : string)
  | CreatePod (namespace : string) (body : pod_manifest)
  | DeletePod (name namespace : string) (grace_period : Z)
  | Sleep (seconds : Z)
  | WatchStream (namespace field_selector : string) (timeout_seconds : Z)
  | WatchStop
  | PodExec (name namespace : string) (command : list string) (wait : Z).

(** ** KubernetesManager *)

Record KubernetesManager (E P : Type) : Type := mkKubernetesManager {
  km_namespace : string;               (* self.namespace *)
  km_disable_proxy : bool;             (* self.disable_proxy *)
  km_pods : gmap string P;             (* self.pods *)
  km_client : E;                       (* self.client, and the world behind it *)
  km_environ : strdict;                (* os.environ *)
  km_calls : list k8s_call             (* the calls issued so far *)
}.
Arguments mkKubernetesManager {E P} _ _ _ _ _ _.
Arguments km_namespace {E P} _.
Arguments km_disable_proxy {E P} _.
Arguments km_pods {E P} _.
Arguments km_client {E P} _.
Arguments km_environ {E P} _.
Arguments km_calls {E P} _.

#[global] Instance KubernetesManager_HasEnviron {E P} : HasEnviron (KubernetesManager E P) :=
  {| get_environ := km_environ;
     set_environ := fun env s =>
       mkKubernetesManager (km_namespace s) (km_disable_proxy s) (km_pods s)
         (km_client s) env (km_calls s) |}.

Definition km_set_pods {E P} (f : gmap string P -> gmap string P)
    (s : KubernetesManager E P) : KubernetesManager E P :=
  mkKubernetesManager (km_namespace s) (km_disable_proxy s) (f (km_pods s))
    (km_client s) (km_environ s) (km_calls s).

Definition km_log {E P} (call : k8s_call) (s : KubernetesManager E P)
  : KubernetesManager E P :=
  mkKubernetesManager (km_namespace s) (km_disable_proxy s) (km_pods s)
    (km_client s) (km_environ s) (km_calls s ++ [call]).

(** A step of the world: the engine moves and answers. *)
Definition km_world {E P X A} (op : E -> E * A) : M X (KubernetesManager E P) A :=
  fun s =>
    let '(e, a) := op (km_client s) in
    (mkKubernetesManager (km_namespace s) (km_disable_proxy s) (km_pods s)
       e (km_environ s) (km_calls s), Ok a).

(** A call to the client: it is logged and the answer is handed to the
    [try] statement around it. *)
Definition km_call {E P X A} (call : k8s_call) (op : E -> E * A)
  : M X (KubernetesManager E P) A :=
  bind (modify (km_log call)) (fun _ => km_world op).

(** [time.sleep(seconds)] and [w.stop()]. *)
Definition km_sleep {E P X} (seconds : Z) : M X (KubernetesManager E P) unit :=
  modify (km_log (Sleep seconds)).
Definition km_watch_stop {E P X} : M X (KubernetesManager E P) unit :=
  modify (km_log WatchStop).

(** [with ProxyManager(disable_proxy=self.disable_proxy): body]. *)
Definition km_with_proxy {E P X A} (body : M X (KubernetesManager E P) A)
  : M X (KubernetesManager E P) A :=
  fun s => with_ProxyManager (km_disable_proxy s) body s.

(** [range(a, b)]. *)
Definition py_range (a b : Z) : list Z :=
  (fun i => a + Z.of_nat i) <$> seq 0 (Z.to_nat (b - a)).

Definition retryable_status (status : Z) : bool :=
  bool_decide (status ∈ [409; 429; 500; 503]).

(** [create_pod_spec].  [command] is a [str], so [args] is [[command]]; the
    values of the environment are strings, which [str] leaves as they are.
    The entries of [env] are listed in the order of [map_to_list]. *)
Definition create_pod_spec
    (name image command : string) (environment : option strdict)
    (resources : option (gmap string (gmap string string)))
    (node_selector : option strdict) : pod_manifest :=
  let env_vars : strdict := {[ "PATH" := DEFAULT_DOCKER_PATH ]} in
  let env_vars :=
    match environment with
    | Some environment =>
        if decide (environment = ∅) then env_vars else environment ∪ env_vars
    | None => env_vars
    end in
  let env_spec := map_to_list env_vars in
  let default_resources : gmap string (gmap string string) :=
    {[ "requests" := {[ "cpu" := "1"; "memory" := "1Gi" ]} ]} in
  let default_resources :=
    match resources with
    | Some resources =>
        if decide (resources = ∅) then default_resources
        else resources ∪ default_resources
    | None => default_resources
    end in
  let pod_spec :=
    mkPodSpec "Never"
      [mkContainerSpec name image ["/bin/sh"; "-c"] [command] true true
         env_spec default_resources]
      [mkToleration "NoSchedule" "rl-training-only" "Equal" "true"]
      None in
  let pod_spec :=
    match node_selector with
    | Some node_selector =>
        if decide (node_selector = ∅) then pod_spec
        else mkPodSpec (ps_restartPolicy pod_spec) (ps_containers pod_spec)
               (ps_tolerations pod_spec) (Some node_selector)
    | None => pod_spec
    end in
  mkPodManifest "v1" "Pod" name pod_spec.

(** The polling loop of the inner function [execute] of [execute_command]:
    each round appends what it finds on stdout, then what it finds on
    stderr, when there is something; the chunks are joined at the end. *)
Definition drained_output (rounds : list (string * string)) : string :=
  let combined_chunks :=
    concat ((fun round : string * string =>
               (if String.eqb round.1 "" then [] else [round.1]) ++
               (if String.eqb round.2 "" then [] else [round.2])) <$> rounds) in
  foldr String.append "" combined_chunks.

(** ** The CommandResult wire contract, in the words of the specification

    "Success gives (cleanedOutput, exit code)", where the cleaned output is
    "the output with ANSI escape sequences and carriage returns stripped".
    An ANSI escape sequence is read as a control sequence of ECMA-48
    (section 5.4): ESC and an opening bracket, then parameter bytes
    (0x30 to 0x3F), then intermediate bytes (0x20 to 0x2F), then one final
    byte (0x40 to 0x7E).  The colour sequences are the control sequences
    whose parameters are digits and semicolons and whose final byte is
    [m]; erasing the display (ESC [ 2 J) or the line (ESC [ K) and hiding
    the cursor (ESC [ ? 25 l) are control sequences too. *)

Definition byte_between (lo hi : N) (c : ascii) : bool :=
  ((lo <=? N_of_ascii c)%N && (N_of_ascii c <=? hi)%N).

(** After the opening bracket: the number of characters up to and including
    the final byte.  [params] tells whether parameter bytes may still
    come. *)
Fixpoint spec_control_tail (params : bool) (s : string) : option nat :=
  match s with
  | EmptyString => None
  | String c s' =>
      if params && byte_between 48 63 c then S <$> spec_control_tail true s'
      else if byte_between 32 47 c then S <$> spec_control_tail false s'
      else if byte_between 64 126 c then Some 1%nat
      else None
  end.

(** The length of what is to be stripped at the start of [s]: a carriage
    return, or a whole control sequence. *)
Definition spec_stripped_prefix (s : string) : option nat :=
  match s with
  | EmptyString => None
  | String c s' =>
      if Ascii.eqb c CR then Some 1%nat
      else if Ascii.eqb c ESC then
        match s' with
        | String c' s'' =>
            if Ascii.eqb c' "["%char
            then (fun n => S (S n)) <$> spec_control_tail true s''
            else None
        | EmptyString => None
        end
      else None
  end.

Fixpoint spec_strip_from (skip : nat) (s : string) : string :=
  match s with
  | EmptyString => EmptyString
  | String c s' =>
      match skip with
      | S k => spec_strip_from k s'
      | O =>
          match spec_stripped_prefix s with
          | Some (S k) => spec_strip_from k s'
          | _ => String c (spec_strip_from 0 s')
          end
      end
  end.

(** The cleaned output of the specification. *)
Definition spec_cleaned_output (output : string) : string := spec_strip_from 0 output.

(** The output of a command run through a stream, in the words of the
    specification: everything the stream delivered, in the order it was
    read, stdout before stderr in each round. *)
Definition spec_stream_output (rounds : list (string * string)) : string :=
  foldr (fun round rest => round.1 +:+ round.2 +:+ rest) "" rounds.

(** What the pair must be for each way the execution can resolve.  A
    resolution without an exit code is outside the contract. *)
Definition wire_contract (timeout : Z) (resolved : answer (string * option Z))
    (result : string * string) : Prop :=
  match resolved with
  | Ok (output, Some exit_code) =>
      if decide (exit_code = 0) then result = (spec_cleaned_output output, "0")
      else if decide (exit_code = 124) then
        result = ("Command timed out (>" +:+ pretty timeout +:+ "s)", "-1")
      else result = (output, "Error: Exit code " +:+ pretty exit_code)
  | Ok (_, None) => True
  | Raise (FuturesTimeoutError _) =>
      result = ("Command timed out (>" +:+ pretty timeout +:+ "s)", "-1")
  | Raise e => result = ("Error: " +:+ repr e, "-1")
  end.

(** Text whose only escape characters open colour sequences: characters
    other than ESC, and sequences ESC [ parameters m with parameters among
    the digits and the semicolon. *)
Inductive colour_text : string -> Prop :=
  | colour_text_end : colour_text ""
  | colour_text_char (c : ascii) (s : string) :
      c <> ESC -> colour_text s -> colour_text (String c s)
  | colour_text_sequence (params s : string) :
      Forall (fun c => is_sgr_param c = true) (String.list_ascii_of_string params) ->
      colour_text s ->
      colour_text (String ESC (String "[" (params +:+ String "m" s))).

Section KubernetesManager.
Context {E P : Type} `{CoreV1Api E P}.
Local Open Scope py_scope.

Abbreviation KM := (KubernetesManager E P).

(** The loop of [_wait_for_pod_running] over the events still to come;
    [ending] is how the generator ends after them. *)
Fixpoint wait_loop (pod_name : string) (timeout : Z) (start_time : Q)
    (events : list string) (ending : option lib_exn) : M exn KM unit :=
  match events with
  | [] =>
      match ending with
      | None => ret tt                      (* the generator is exhausted *)
      | Some e => raise (LibExn e)
      end
  | phase :: events =>
      now <- km_world time_time ;;
      if negb (Qle_bool (now - start_time) (inject_Z timeout)) then
        km_watch_stop ;;;
        raise (RuntimeError ("Pod '" +:+ pod_name +:+ "' timed out after "
                             +:+ pretty timeout +:+ " seconds"))
      else if String.eqb phase "Running" then
        km_watch_stop ;;;
        ret tt
      else if bool_decide (phase ∈ ["Failed"; "Succeeded"; "Unknown"]) then
        km_watch_stop ;;;
        raise (RuntimeError ("Pod '" +:+ pod_name +:+ "' entered terminal phase '"
                             +:+ phase +:+ "'"))
      else wait_loop pod_name timeout start_time events ending
  end.

(** [_wait_for_pod_running(pod_name, timeout)]. *)
Definition KubernetesManager_wait_for_pod_running (pod_name : string) (timeout : Z)
  : M exn KM unit :=
  km_with_proxy
    (start_time <- km_world time_time ;;
     s <- get ;;
     stream <- km_call (WatchStream (km_namespace s) ("metadata.name=" +:+ pod_name) timeout)
                 (watch_stream (km_namespace s) ("metadata.name=" +:+ pod_name) timeout) ;;
     wait_loop pod_name timeout start_time stream.1 stream.2).

(** The [for attempt in range(1, max_retries + 1)] loop of [start_pod] over
    the attempts still to make.  [Some pod] is the exit by [break]; [None] is
    the loop running to its end, after which the [else] branch is run. *)
Fixpoint create_loop (pod_body : pod_manifest) (max_retries : Z)
    (attempts : list Z) (backoff : Z) : M exn KM (option P) :=
  match attempts with
  | [] => ret None
  | attempt :: attempts =>
      s <- get ;;
      r <- km_call (CreatePod (km_namespace s) pod_body)
             (create_namespaced_pod (km_namespace s) pod_body) ;;
      match r with
      | Ok pod => ret (Some pod)
      | Raise (ApiException status descr) =>
          if retryable_status status && (attempt <? max_retries) then
            km_sleep backoff ;;;
            create_loop pod_body max_retries attempts (Z.min (backoff * 2) 60)
          else raise (LibExn (ApiException status descr))
      | Raise e => raise (LibExn e)
      end
  end.

(** [start_pod(name, image, command, environment, resources, node_selector,
    max_retries, timeout)]. *)
Definition KubernetesManager_start_pod
    (name image command : string) (environment : option strdict)
    (resources : option (gmap string (gmap string string)))
    (node_selector : option strdict) (max_retries : Z) (timeout : Z)
  : M exn KM P :=
  km_with_proxy
    (s <- get ;;
     r <- km_call (ReadPod name (km_namespace s))
            (read_namespaced_pod name (km_namespace s)) ;;
     match r with
     | Ok pod =>
         modify (km_set_pods (<[name := pod]>)) ;;;
         ret pod
     | Raise e =>
         match e with
         | ApiException status _ =>
             if decide (status <> 404) then raise (LibExn e) else ret tt
         | _ => raise (LibExn e)
         end ;;;
         let pod_body :=
           create_pod_spec name image command environment resources node_selector in
         created <- create_loop pod_body max_retries (py_range 1 (max_retries + 1)) 5 ;;
         match created with
         | None =>
             raise (RuntimeError ("Exceeded retry limit (" +:+ pretty max_retries
                                  +:+ ") creating pod '" +:+ name +:+ "'"))
         | Some pod =>
             KubernetesManager_wait_for_pod_running name timeout ;;;
             modify (km_set_pods (<[name := pod]>)) ;;;
             ret pod
         end
     end).

(** [execute_command(pod_name, command, timeout)]. *)
Definition KubernetesManager_execute_command
    (pod_name : string) (command : string) (timeout : Z)
  : M lib_exn KM (string * string) :=
  km_with_proxy
    (let full_command := ["/bin/sh"; "-c"; command] in
     try_except
       (s <- get ;;
        r <- bind (km_call (PodExec pod_name (km_namespace s) full_command (timeout + 5))
                     (pod_exec pod_name (km_namespace s) full_command (timeout + 5)))
                  (fun a : answer _ =>
                     match a with Ok v => ret v | Raise e => raise e end) ;;
        let output := drained_output r.1 in
        let exit_code := r.2 in
        if decide (exit_code = None) then
          ret ("Exit code not found", "-1")
        else if decide (exit_code = Some 124) then
          ret (timed_out_result timeout)
        else if decide (exit_code <> Some 0) then
          ret (output, "Error: Exit code " +:+ str_optint exit_code)
        else
          let output := strip_ansi output in
          ret (output, str_optint exit_code))
       (fun e =>
          match e with
          | FuturesTimeoutError _ => ret (timed_out_result timeout)
          | _ => ret ("Error: " +:+ repr e, "-1")
          end)).

(** [delete_pod(pod_name, grace_period)]. *)
Definition KubernetesManager_delete_pod (pod_name : string) (grace_period : Z)
  : M exn KM unit :=
  km_with_proxy
    (s <- get ;;
     r <- km_call (DeletePod pod_name (km_namespace s) grace_period)
            (delete_namespaced_pod pod_name (km_namespace s) grace_period) ;;
     match r with
     | Ok _ =>
         s <- get ;;
         match km_pods s !! pod_name with
         | Some _ => modify (km_set_pods (delete pod_name))
         | None => ret tt
         end
     | Raise (ApiException status descr) =>
         if decide (status = 404) then ret tt
         else raise (LibExn (ApiException status descr))
     | Raise e => raise (LibExn e)
     end).

End KubernetesManager.

(** ** The answers of the API server to successive creation calls

    The creation loop issues nothing but creation calls to the engine, so
    the answers it gets are those of the engine to [n] creation calls in a
    row. *)
Fixpoint create_answers {E P} `{CoreV1Api E P} (namespace : string)
    (body : pod_manifest) (n : nat) (e : E) : list (answer P) :=
  match n with
  | O => []
  | S n =>
      let '(e', a) := create_namespaced_pod namespace body e in
      a :: create_answers namespace body n e'
  end.

(** An answer on which the loop may try again. *)
Definition retryable_answer {P} (a : answer P) : bool :=
  match a with
  | Raise (ApiException status _) => retryable_status status
  | _ => false
  end.

(** The answer "not found" of the API server. *)
Definition not_found (e : lib_exn) : bool :=
  match e with
  | ApiException status _ => bool_decide (status = 404)
  | _ => false
  end.

(** The environment of a new target, in the words of the specification: the
    baseline PATH merged with the mapping of the user, whose keys win. *)
Definition merged_environment (environment : option strdict) : strdict :=
  default ∅ environment ∪ {[ "PATH" := DEFAULT_DOCKER_PATH ]}.

(** The characters of a [hexdigest]. *)
Definition is_lower_hex (c : ascii) : bool :=
  let n := N_of_ascii c in
  ((48 <=? n)%N && (n <=? 57)%N) || ((97 <=? n)%N && (n <=? 102)%N).

(** The character that the sanitisation of an image name puts for [c]. *)
Definition sanitize_char (c : ascii) : ascii :=
  if Ascii.eqb c "/"%char || Ascii.eqb c ":"%char then "-"%char else c.

(** ** What the traces show *)

Definition is_run {C} (call : docker_call C) : bool :=
  match call with ContainersRun _ _ _ _ => true | _ => false end.

(** The creation calls issued to the docker SDK. *)
Definition run_calls {C} (calls : list (docker_call C)) : nat :=
  length (List.filter is_run calls).

Definition is_create (call : k8s_call) : bool :=
  match call with CreatePod _ _ => true | _ => false end.

(** The creation calls issued to the kubernetes client. *)
Definition create_calls (calls : list k8s_call) : nat :=
  length (List.filter is_create calls).

(** The delays slept, in order. *)
Definition sleeps (calls : list k8s_call) : list Z :=
  omap (fun call => match call with Sleep seconds => Some seconds | _ => None end) calls.

Definition watch_stops (calls : list k8s_call) : nat :=
  length (List.filter (fun call => match call with WatchStop => true | _ => false end) calls).

(** The delays of a retry loop that starts at [backoff]: each delay is the
    double of the one before, capped at 60. *)
Fixpoint backoff_chain (backoff : Z) (delays : list Z) : Prop :=
  match delays with
  | [] => True
  | d :: delays => d = backoff /\ backoff_chain (Z.min (backoff * 2) 60) delays
  end.

(** ** Laws of an engine that keeps its targets

    The managers never ask for more than this of the engines: a target that
    was created, or that a lookup has found, is found by the lookups that
    follow, as long as only the calls of [start] are issued. *)

Class DockerKeepsContainers (E C : Type) `{DockerClient E C} : Type := {
  container_exists : E -> string -> Prop;
  run_creates : forall image command name env e e' c,
    containers_run image command name env e = (e', Ok c) ->
    container_exists e' name;
  list_shows : forall name e e' c l,
    containers_list name e = (e', Ok (c :: l)) -> container_exists e' name;
  list_finds : forall name e e' l,
    container_exists e name -> containers_list name e = (e', Ok l) -> l <> [];
  start_keeps : forall name c e,
    container_exists e name -> container_exists (container_start c e).1 name
}.

Class ApiKeepsPods (E P : Type) `{CoreV1Api E P} : Type := {
  pod_exists : E -> string -> string -> Prop;
  create_creates : forall namespace body e e' p,
    create_namespaced_pod namespace body e = (e', Ok p) ->
    pod_exists e' (pm_metadata_name body) namespace;
  read_shows : forall name namespace e e' p,
    read_namespaced_pod name namespace e = (e', Ok p) -> pod_exists e' name namespace;
  read_finds : forall name namespace e,
    pod_exists e name namespace ->
    exists p, (read_namespaced_pod name namespace e).2 = Ok p;
  clock_keeps : forall name namespace e,
    pod_exists e name namespace -> pod_exists (time_time e).1 name namespace;
  watch_keeps : forall name namespace ns' selector timeout e,
    pod_exists e name namespace ->
    pod_exists (watch_stream ns' selector timeout e).1 name namespace
}.

(** ** A simulated docker engine

    Containers by name with their status; [run] refuses a name in use;
    the executions answer from a script; the clock readings come from a
    list. *)

Record sim_container : Type := mkSimContainer {
  sc_name : string;
  sc_status : string
}.

Record sim_docker : Type := mkSimDocker {
  sd_containers : gmap string string;                  (* name to status *)
  sd_run_faults : list lib_exn;                        (* answers to the next runs *)
  sd_exec_script : list (answer (string * option Z));  (* answers to the next execs *)
  sd_pid : Z;
  sd_clock : list string
}.

Definition sim_containers_list (name : string) (e : sim_docker)
  : sim_docker * answer (list sim_container) :=
  match sd_containers e !! name with
  | Some status => (e, Ok [mkSimContainer name status])
  | None => (e, Ok [])
  end.

Definition sim_containers_run (image command name : string) (env : strdict)
    (e : sim_docker) : sim_docker * answer sim_container :=
  match sd_run_faults e with
  | fault :: faults =>
      (mkSimDocker (sd_containers e) faults (sd_exec_script e) (sd_pid e) (sd_clock e),
       Raise fault)
  | [] =>
      match sd_containers e !! name with
      | Some _ => (e, Raise (OtherException "APIError(409 Conflict)"))
      | None =>
          (mkSimDocker (<[name := "running"]> (sd_containers e)) [] (sd_exec_script e)
             (sd_pid e) (sd_clock e),
           Ok (mkSimContainer name "created"))
      end
  end.

Definition sim_set_status (status : option string) (c : sim_container) (e : sim_docker)
  : sim_docker * answer unit :=
  match sd_containers e !! sc_name c with
  | Some _ =>
      (mkSimDocker
         (match status with
          | Some status => <[sc_name c := status]> (sd_containers e)
          | None => delete (sc_name c) (sd_containers e)
          end)
         (sd_run_faults e) (sd_exec_script e) (sd_pid e) (sd_clock e), Ok tt)
  | None => (e, Raise (OtherException "NotFound(404)"))
  end.

Definition sim_exec_run (c : sim_container) (cmd : list string) (workdir : option string)
    (env : strdict) (wait : Z) (e : sim_docker)
  : sim_docker * answer (string * option Z) :=
  match sd_exec_script e with
  | a :: script =>
      (mkSimDocker (sd_containers e) (sd_run_faults e) script (sd_pid e) (sd_clock e), a)
  | [] => (e, Raise (OtherException "APIError(500)"))
  end.

Definition sim_datetime_now (e : sim_docker) : sim_docker * string :=
  match sd_clock e with
  | t :: clock =>
      (mkSimDocker (sd_containers e) (sd_run_faults e) (sd_exec_script e) (sd_pid e) clock, t)
  | [] => (e, "1970-01-01 00:00:00")
  end.

#[global] Instance sim_DockerClient : DockerClient sim_docker sim_container := {|
  os_getpid := sd_pid;
  datetime_now := sim_datetime_now;
  containers_list := sim_containers_list;
  containers_run := sim_containers_run;
  container_status := sc_status;
  container_start := sim_set_status (Some "running");
  container_stop := sim_set_status (Some "exited");
  container_remove := sim_set_status None;
  container_exec_run := sim_exec_run;
  client_close := fun e => (e, Ok tt)
|}.

(** ** A simulated API server

    Pods by name (one namespace); the next creation calls are answered by
    the statuses of a fault script; the watch yields a fixed list of phases
    and then ends; the clock advances by a fixed step at each reading. *)

Record sim_api : Type := mkSimApi {
  sa_pods : gmap string pod_manifest;
  sa_create_faults : list Z;
  sa_phases : list string;
  sa_clock : Q;
  sa_tick : Q;
  sa_exec_script : list (answer (list (string * string) * option Z))
}.

Definition sim_time_time (e : sim_api) : sim_api * Q :=
  (mkSimApi (sa_pods e) (sa_create_faults e) (sa_phases e)
     (sa_clock e + sa_tick e)%Q (sa_tick e) (sa_exec_script e),
   sa_clock e).

Definition sim_read (name namespace : string) (e : sim_api) : sim_api * answer pod_manifest :=
  match sa_pods e !! name with
  | Some p => (e, Ok p)
  | None => (e, Raise (ApiException 404 "ApiException(404 Not Found)"))
  end.

Definition sim_create (namespace : string) (body : pod_manifest) (e : sim_api)
  : sim_api * answer pod_manifest :=
  match sa_create_faults e with
  | status :: faults =>
      (mkSimApi (sa_pods e) faults (sa_phases e) (sa_clock e) (sa_tick e) (sa_exec_script e),
       Raise (ApiException status ("ApiException(" +:+ pretty status +:+ ")")))
  | [] =>
      match sa_pods e !! pm_metadata_name body with
      | Some _ => (e, Raise (ApiException 409 "ApiException(409 Conflict)"))
      | None =>
          (mkSimApi (<[pm_metadata_name body := body]> (sa_pods e)) [] (sa_phases e)
             (sa_clock e) (sa_tick e) (sa_exec_script e),
           Ok body)
      end
  end.

Definition sim_delete (name namespace : string) (grace_period : Z) (e : sim_api)
  : sim_api * answer unit :=
  match sa_pods e !! name with
  | Some _ =>
      (mkSimApi (delete name (sa_pods e)) (sa_create_faults e) (sa_phases e)
         (sa_clock e) (sa_tick e) (sa_exec_script e), Ok tt)
  | None => (e, Raise (ApiException 404 "ApiException(404 Not Found)"))
  end.

Definition sim_watch (namespace selector : string) (timeout : Z) (e : sim_api)
  : sim_api * (list string * option lib_exn) :=
  (e, (sa_phases e, None)).

Definition sim_pod_exec (name namespace : string) (command : list string) (wait : Z)
    (e : sim_api) : sim_api * answer (list (string * string) * option Z) :=
  match sa_exec_script e with
  | a :: script =>
      (mkSimApi (sa_pods e) (sa_create_faults e) (sa_phases e) (sa_clock e) (sa_tick e)
         script, a)
  | [] => (e, Raise (ApiException 500 "ApiException(500)"))
  end.

#[global] Instance sim_CoreV1Api : CoreV1Api sim_api pod_manifest := {|
  time_time := sim_time_time;
  read_namespaced_pod := sim_read;
  create_namespaced_pod := sim_create;
  delete_namespaced_pod := sim_delete;
  watch_stream := sim_watch;
  pod_exec := sim_pod_exec
|}.

(** A fresh manager over a simulated engine. *)
Definition sim_docker_manager (e : sim_docker) : DockerManager sim_docker sim_container :=
  mkDockerManager e ∅ [] [].

Definition sim_k8s_manager (environ : strdict) (e : sim_api)
  : KubernetesManager sim_api pod_manifest :=
  mkKubernetesManager DEFAULT_NAMESPACE true ∅ e environ [].

(** ** KubernetesManager.cleanup *)

(** A state together with a second component: the lines printed so far, or
    the trace of a file copy. *)
#[global] Instance pair_HasEnviron {S T : Type} `{HasEnviron S} : HasEnviron (S * T) :=
  {| get_environ := fun st => get_environ st.1;
     set_environ := fun env st => (set_environ env st.1, st.2) |}.

(** A method of the manager, run on the first component. *)
Definition km_lift {S T X A} (m : M X S A) : M X (S * T) A :=
  fun st => let '(s', r) := m st.1 in ((s', st.2), r).

Section Cleanup.
Context {E P : Type} `{CoreV1Api E P}.

(** What the f-string field [{e}] gives for an exception. *)
Variable str_exn : exn -> string.


End Cleanup.

(** ** KubernetesManager.copy_to_pod *)

(** An [io.BytesIO]: its content and its read cursor. *)
Record BytesIO : Type := mkBytesIO {
  bio_buffer : list N;
  bio_pos : nat
}.

(** [read()]: everything from the cursor on; the cursor goes to the end. *)
Definition BytesIO_read (b : BytesIO) : BytesIO * list N :=
  (mkBytesIO (bio_buffer b) (max (bio_pos b) (length (bio_buffer b))),
   drop (bio_pos b) (bio_buffer b)).

Definition BytesIO_seek (pos : nat) (b : BytesIO) : BytesIO :=
  mkBytesIO (bio_buffer b) pos.

(** What the file copy asks of the world, over the engine state [E]. *)
Class PodFiles (E : Type) : Type := {
  (* the bytes that tarfile writes into a fresh BytesIO for
     tar.add(src_path, arcname=arcname), or the exception of tarfile *)
  tar_add : string -> string -> E -> E * answer (list N);
  (* stream(connect_get_namespaced_pod_exec, pod_name, namespace, command=,
     stderr=True, stdin=True, stdout=True, tty=False, _preload_content=False),
     then resp.write_stdin(data) with what tar_stream.read() gives, then
     resp.close(); or the exception of any of them *)
  pod_write_stdin : string -> string -> list string -> list N -> E -> E * answer unit;
  os_path_dirname : string -> string;
  os_path_basename : string -> string
}.

(** The trace of a file copy. *)
Inductive copy_call : Type :=
  | WriteStdin (pod_name namespace : string) (command : list string) (data : list N)
  | CopySleep (seconds : Z).

Section CopyToPod.
Context {E P : Type} `{PodFiles E}.
Local Open Scope py_scope.

Abbreviation CopyState := (KubernetesManager E P * list copy_call)%type.

Definition copy_log (call : copy_call) : M exn CopyState unit :=
  modify (fun st : CopyState => (st.1, st.2 ++ [call])).

Definition copy_world {A} (op : E -> E * A) : M exn CopyState A :=
  km_lift (km_world op).

(** The [for attempt in range(max_retries)] loop of [copy_to_pod] over the
    attempts still to make. *)
Fixpoint copy_loop (pod_name dest_dir : string) (max_retries : Z)
    (attempts : list Z) (retry_delay : Z) (tar_stream : BytesIO)
  : M exn CopyState unit :=
  match attempts with
  | [] => ret tt
  | attempt :: attempts =>
      let exec_command := ["tar"; "xmf"; "-"; "-C"; dest_dir] in
      st <- get ;;
      let read := BytesIO_read tar_stream in
      copy_log (WriteStdin pod_name (km_namespace st.1) exec_command read.2) ;;;
      r <- copy_world (pod_write_stdin pod_name (km_namespace st.1) exec_command read.2) ;;
      match r with
      | Ok _ => ret tt
      | Raise e =>
          if attempt <? max_retries - 1 then
            copy_log (CopySleep retry_delay) ;;;
            copy_loop pod_name dest_dir max_retries attempts
              (Z.min (retry_delay * 2) 60) (BytesIO_seek 0 read.1)
          else raise (LibExn e)
      end
  end.

(** [copy_to_pod(pod_name, src_path, dest_path)]. *)
Definition KubernetesManager_copy_to_pod (pod_name src_path dest_path : string)
  : M exn CopyState unit :=
  fun st =>
    with_ProxyManager (km_disable_proxy st.1)
      (let dest_dir := os_path_dirname dest_path in
       archived <- copy_world (tar_add src_path (os_path_basename dest_path)) ;;
       match archived with
       | Raise e => raise (LibExn e)
       | Ok archive =>
           let tar_stream := BytesIO_seek 0 (mkBytesIO archive (length archive)) in
           let max_retries := 5 in
           let retry_delay := 5 in
           copy_loop pod_name dest_dir max_retries (py_range 0 max_retries) retry_delay
             tar_stream
       end) st.

End CopyToPod.

(** ** The answers of the engine to the calls of [close] and [copy_to_pod] *)






(** The answers of the engine to [n] writes of the same archive in a row. *)
Fixpoint write_answers {E} `{PodFiles E} (pod_name namespace : string)
    (command : list string) (data : list N) (n : nat) (e : E) : list (answer unit) :=
  match n with
  | O => []
  | S n =>
      let answered := pod_write_stdin pod_name namespace command data e in
      answered.2 :: write_answers pod_name namespace command data n answered.1
  end.

(** * Properties *)

(** ** ProxyManager: capture and restoration *)

Lemma capture_vars_environ (vars : list string) (saved environ : strdict) (k : string) :
  (foldl capture_var (saved, environ) vars).2 !! k
  = if decide (k ∈ vars) then None else environ !! k.
Proof.
  revert saved environ. induction vars as [|var vars IH]; intros saved environ.
  - cbn [foldl snd]. case_decide; [set_solver | done].
  - cbn [foldl]. unfold capture_var at 2. cbn [fst snd].
    destruct (environ !! var) as [value|] eqn:Hvar; rewrite IH.
    + destruct (decide (k = var)) as [->|Hne].
      * rewrite lookup_delete_eq. repeat case_decide; set_solver.
      * rewrite lookup_delete_ne by done. repeat case_decide; set_solver.
    + destruct (decide (k = var)) as [->|Hne].
      * rewrite Hvar. repeat case_decide; set_solver.
      * repeat case_decide; set_solver.
Qed.

Lemma capture_vars_saved (vars : list string) (saved environ : strdict) (k : string) :
  (foldl capture_var (saved, environ) vars).1 !! k
  = match (if decide (k ∈ vars) then environ !! k else None) with
    | Some value => Some value
    | None => saved !! k
    end.
Proof.
  revert saved environ. induction vars as [|var vars IH]; intros saved environ.
  - cbn [foldl fst]. case_decide; [set_solver | done].
  - cbn [foldl]. unfold capture_var at 2. cbn [fst snd].
    destruct (environ !! var) as [value|] eqn:Hvar; rewrite IH.
    + destruct (decide (k = var)) as [->|Hne].
      * rewrite lookup_delete_eq, lookup_insert_eq, Hvar.
        repeat case_decide; set_solver.
      * rewrite lookup_delete_ne, lookup_insert_ne by done.
        repeat case_decide; set_solver.
    + destruct (decide (k = var)) as [->|Hne].
      * rewrite Hvar. repeat case_decide; set_solver.
      * repeat case_decide; set_solver.
Qed.

Lemma restore_fold (saved environ : strdict) :
  map_fold (fun var value env => <[var := value]> env) environ saved = saved ∪ environ.
Proof.
  apply (map_fold_weak_ind (fun r m => r = m ∪ environ)).
  - by rewrite (left_id_L ∅ (∪)).
  - intros var value m r Hnone ->. by rewrite insert_union_l.
Qed.

Lemma restore_proxy_environ (self : ProxyManager) (environ : strdict) :
  (_restore_proxy self environ).2 = original_proxy_settings self ∪ environ.
Proof.
  unfold _restore_proxy. case_decide as Hempty; simpl.
  - by rewrite Hempty, (left_id_L ∅ (∪)).
  - apply restore_fold.
Qed.

(** What the scope leaves, whatever the body does to the environment. *)
Lemma with_ProxyManager_environ {X A} (flag : bool) (body : M X strdict A)
    (environ : strdict) (k : string) :
  (with_ProxyManager flag body environ).1 !! k
  = if flag && bool_decide (k ∈ proxy_vars) then
      match environ !! k with
      | Some value => Some value
      | None => (body (scope_entry_environ flag environ)).1 !! k
      end
    else (body (scope_entry_environ flag environ)).1 !! k.
Proof.
  unfold with_ProxyManager, scope_entry_environ, ProxyManager_enter, ProxyManager_init,
    _disable_proxy.
  remember proxy_vars as vars eqn:Hvars.
  destruct flag; simpl.
  - destruct (body _) as [env2 r] eqn:Hbody; simpl.
    unfold ProxyManager_exit; simpl. rewrite restore_proxy_environ; simpl.
    rewrite lookup_union, capture_vars_saved, lookup_empty.
    case_bool_decide; case_decide; try done.
    + destruct (environ !! k); simpl; [by destruct (env2 !! k)|].
      by rewrite (left_id_L None _).
    + by rewrite (left_id_L None _).
  - destruct (body environ) as [env2 r]; simpl. done.
Qed.

Lemma scope_entry_lookup (flag : bool) (environ : strdict) (k : string) :
  scope_entry_environ flag environ !! k
  = if flag && bool_decide (k ∈ proxy_vars) then None else environ !! k.
Proof.
  unfold scope_entry_environ, ProxyManager_enter, ProxyManager_init, _disable_proxy.
  remember proxy_vars as vars eqn:Hvars.
  destruct flag; simpl; [|done].
  rewrite capture_vars_environ. case_bool_decide; case_decide; done.
Qed.

Lemma with_ProxyManager_result {X A} (flag : bool) (body : M X strdict A)
    (environ : strdict) :
  (with_ProxyManager flag body environ).2 = (body (scope_entry_environ flag environ)).2.
Proof.
  unfold with_ProxyManager, scope_entry_environ. simpl.
  by destruct (body _).
Qed.

(** The claim does not hold for every wrapped operation.  [_restore_proxy]
    writes back what was captured and deletes nothing, and what was absent
    is not captured: a proxy variable that was absent before the scope and
    that the wrapped operation sets is still set after the scope. *)
Lemma proxy_scope_created_variable_stays :
  let environ : strdict := {[ "HOME" := "/root" ]} in
  let body : M exn strdict unit := modify (<["http_proxy" := "http://set-inside"]>) in
  environ !! "http_proxy" = None /\
  (with_ProxyManager true body environ).1 !! "http_proxy" = Some "http://set-inside" /\
  ~ (forall var, var ∈ proxy_vars ->
       (with_ProxyManager true body environ).1 !! var = environ !! var).
Proof.
  intros environ body.
  assert (Hafter : (with_ProxyManager true body environ).1 !! "http_proxy"
                   = Some "http://set-inside") by (vm_compute; reflexivity).
  split; [vm_compute; reflexivity|]. split; [exact Hafter|].
  intros Hall. specialize (Hall "http_proxy").
  rewrite Hafter in Hall. discriminate Hall.
  apply (bool_decide_unpack _). vm_compute. exact I.
Qed.

(** C4, amended.  Entering and leaving the scope around a body (one that
    returns or one that raises) leaves each of the eight proxy variables
    exactly as it was before the scope was entered, present with the same
    value or absent, provided the body leaves unset each proxy variable
    that was absent before the scope; for a scope created with
    [disable_proxy=False], which captures nothing, provided the body leaves
    all eight as it found them.  The scope changes no other variable: on
    entry they are as before, and afterwards they are as the body left
    them.  The outcome of the body is the outcome of the statement. *)
Theorem proxy_scope_restores_environment {X A} (flag : bool) (environ : strdict)
    (body : M X strdict A) :
  let entry := scope_entry_environ flag environ in
  (forall var, var ∈ proxy_vars -> flag = false \/ environ !! var = None ->
     (body entry).1 !! var = environ !! var) ->
  let after := (with_ProxyManager flag body environ).1 in
  (forall var, var ∈ proxy_vars -> after !! var = environ !! var) /\
  (forall var, var ∉ proxy_vars ->
     entry !! var = environ !! var /\ after !! var = (body entry).1 !! var) /\
  (with_ProxyManager flag body environ).2 = (body entry).2.
Proof.
  intros entry Hbody after. split; [|split].
  - intros var Hvar. unfold after. rewrite with_ProxyManager_environ.
    fold entry. rewrite bool_decide_eq_true_2 by done.
    destruct flag; cbn [andb].
    + destruct (environ !! var) as [value|] eqn:Hval; [done|].
      rewrite <- Hval. apply Hbody; auto.
    + apply Hbody; auto.
  - intros var Hvar. unfold after, entry.
    rewrite with_ProxyManager_environ, scope_entry_lookup.
    rewrite bool_decide_eq_false_2 by done. rewrite andb_false_r. done.
  - apply with_ProxyManager_result.
Qed.

(** A body that overwrites a proxy variable that was set and then raises,
    in an environment with another proxy variable absent. *)
Lemma proxy_scope_restores_environment_witness :
  let environ : strdict := {[ "http_proxy" := "http://proxy:3128"; "HOME" := "/root" ]} in
  let body : M exn strdict unit :=
    bind (modify (<["http_proxy" := "http://other"]>))
         (fun _ => raise (RuntimeError "boom")) in
  (with_ProxyManager true body environ).1 !! "http_proxy" = Some "http://proxy:3128" /\
  (with_ProxyManager true body environ).1 !! "NO_PROXY" = None.
Proof.
  intros environ body.
  destruct (proxy_scope_restores_environment true environ body) as (Hproxy & _ & _).
  - intros var Hvar [Hflag|Hnone]; [discriminate Hflag|].
    unfold proxy_vars in Hvar.
    repeat (apply elem_of_cons in Hvar as [-> | Hvar]);
      try (vm_compute; reflexivity);
      try (vm_compute in Hnone; discriminate Hnone).
    by apply elem_of_nil in Hvar.
  - split.
    + rewrite (Hproxy "http_proxy") by (apply (bool_decide_unpack _); vm_compute; exact I).
      vm_compute. reflexivity.
    + rewrite (Hproxy "NO_PROXY") by (apply (bool_decide_unpack _); vm_compute; exact I).
      vm_compute. reflexivity.
Defined.

(** When the body leaves the environment alone, the environment after the
    scope is the environment before it. *)
Corollary proxy_scope_identity {X A} (flag : bool) (environ : strdict)
    (body : M X strdict A) :
  (body (scope_entry_environ flag environ)).1 = scope_entry_environ flag environ ->
  (with_ProxyManager flag body environ).1 = environ.
Proof.
  intros Hbody. apply map_eq. intros k.
  rewrite with_ProxyManager_environ, Hbody, scope_entry_lookup.
  destruct (flag && bool_decide (k ∈ proxy_vars)); [by destruct (environ !! k) | done].
Qed.

(** A variable that was set before the scope is restored to its value even
    when the body sets, changes or deletes it. *)
Lemma proxy_scope_restores_present {X A} (environ : strdict) (body : M X strdict A)
    (var value : string) :
  var ∈ proxy_vars -> environ !! var = Some value ->
  (with_ProxyManager true body environ).1 !! var = Some value.
Proof.
  intros Hvar Hval. rewrite with_ProxyManager_environ. simpl.
  rewrite bool_decide_eq_true_2 by done. by rewrite Hval.
Qed.

(** ** Command execution *)

Section ExecuteCommand.
Context {E C P E' : Type} `{DockerClient E C} `{CoreV1Api E' P}.

(** The run of the local [execute_command]: the state it leaves and the
    pair it returns, for each answer of the engine. *)
Lemma docker_execute_command_run (container : C) (command : string) (timeout : Z)
    (workdir : option string) (s : DockerManager E C) :
  let resolved :=
    container_exec_run container ["/bin/sh"; "-c"; command] workdir
      {[ "PATH" := DEFAULT_DOCKER_PATH ]} (timeout + 5) (dm_client s) in
  exists result,
    DockerManager_execute_command container command timeout workdir s
    = (mkDockerManager resolved.1 (dm_containers s)
         (dm_calls s ++ [ContainerExecRun container ["/bin/sh"; "-c"; command] workdir
                           {[ "PATH" := DEFAULT_DOCKER_PATH ]} (timeout + 5)])
         (dm_stdout s), Ok result)
    /\ match resolved.2 with
       | Ok (output, Some exit_code) =>
           if decide (exit_code = 0) then result = (strip_ansi output, "0")
           else if decide (exit_code = 124) then result = timed_out_result timeout
           else result = (output, "Error: Exit code " +:+ pretty exit_code)
       | Ok (_, None) => True
       | Raise (FuturesTimeoutError _) => result = timed_out_result timeout
       | Raise e => result = ("Error: " +:+ repr e, "-1")
       end
    /\ (forall output, resolved.2 = Ok (output, None) ->
        result = (output, "Error: Exit code None")).
Proof.
  intros resolved. unfold DockerManager_execute_command, try_except, bind, dm_call.
  subst resolved.
  destruct (container_exec_run _ _ _ _ _ _) as [e [[output exit_code]|err]]; simpl.
  - destruct exit_code as [n|]; simpl.
    + destruct (decide (n = 0)) as [->|Hn0]; simpl.
      { eexists; split; [reflexivity|]. split; [done|]. intros ? [=]. }
      destruct (decide (n = 124)) as [->|Hn124]; simpl.
      { eexists; split; [reflexivity|]. split; [done|]. intros ? [=]. }
      repeat case_decide; try congruence.
      eexists; split; [reflexivity|]. split; [done|]. intros ? [=].
    + eexists; split; [reflexivity|]. split; [done|]. by intros ? [= ->].
  - destruct err; simpl; eexists; (split; [reflexivity|]); split; try done.
Qed.

(** The same for the cluster [execute_command]. *)
Lemma km_execute_command_run (pod_name command : string) (timeout : Z)
    (s : KubernetesManager E' P) :
  let resolved :=
    pod_exec pod_name (km_namespace s) ["/bin/sh"; "-c"; command] (timeout + 5)
      (km_client s) in
  exists result,
    (KubernetesManager_execute_command pod_name command timeout s).2 = Ok result
    /\ match resolved.2 with
       | Ok (rounds, Some exit_code) =>
           if decide (exit_code = 0) then result = (strip_ansi (drained_output rounds), "0")
           else if decide (exit_code = 124) then result = timed_out_result timeout
           else result = (drained_output rounds, "Error: Exit code " +:+ pretty exit_code)
       | Ok (_, None) => True
       | Raise (FuturesTimeoutError _) => result = timed_out_result timeout
       | Raise e => result = ("Error: " +:+ repr e, "-1")
       end
    /\ (forall rounds, resolved.2 = Ok (rounds, None) ->
        result = ("Exit code not found", "-1")).
Proof.
  intros resolved. subst resolved.
  unfold KubernetesManager_execute_command, km_with_proxy, with_ProxyManager.
  cbn [get_environ set_environ KubernetesManager_HasEnviron].
  unfold try_except, bind, km_call, km_world, modify, get, bind. cbn -[ProxyManager_enter ProxyManager_exit ProxyManager_init].
  destruct (pod_exec _ _ _ _ _) as [e [[rounds exit_code]|err]];
    cbn -[ProxyManager_enter ProxyManager_exit ProxyManager_init].
  - destruct exit_code as [n|]; cbn -[ProxyManager_enter ProxyManager_exit ProxyManager_init].
    + destruct (decide (n = 0)) as [->|Hn0]; cbn -[ProxyManager_enter ProxyManager_exit ProxyManager_init].
      { eexists; split; [reflexivity|]. split; [done|]. intros ? [=]. }
      destruct (decide (n = 124)) as [->|Hn124]; cbn -[ProxyManager_enter ProxyManager_exit ProxyManager_init].
      { eexists; split; [reflexivity|]. split; [done|]. intros ? [=]. }
      repeat case_decide; try congruence.
      eexists; split; [reflexivity|]. split; [done|]. intros ? [=].
    + eexists; split; [reflexivity|]. split; [done|]. done.
  - destruct err; cbn -[ProxyManager_enter ProxyManager_exit ProxyManager_init];
      eexists; (split; [reflexivity|]); split; try done.
Qed.

End ExecuteCommand.

(** Erasing the display, erasing the line and hiding the cursor: the
    substitution of the code leaves each of these control sequences in the
    output, where the cleaning of the contract strips them. *)
Example cleaning_leaves_other_control_sequences :
  Forall (fun sequence =>
            strip_ansi (String ESC sequence) = String ESC sequence /\
            spec_cleaned_output (String ESC sequence) = "")
         ["[2J"; "[K"; "[?25l"].
Proof. repeat constructor. Qed.

(** C1, where the code departs from it.  The substitution that cleans the
    output of a successful command matches the colour sequences only (final
    byte [m]).  A command that exits with code 0 after erasing the display,
    [printf '\033[2Jdone'], has the control sequence ESC [ 2 J in its
    output: the cleaned output of the contract is ["done"], and both
    backends return the output as it is, escape sequence included, with
    ["0"]. *)
Theorem execute_command_keeps_control_sequence :
  let command := "printf '\033[2Jdone'" in
  let output := String ESC "[2Jdone" in
  let local :=
    DockerManager_execute_command (mkSimContainer "c" "running") command 300 None
      (sim_docker_manager
         (mkSimDocker {[ "c" := "running" ]} [] [Ok (output, Some 0)] 1 [])) in
  let cluster :=
    KubernetesManager_execute_command "p" command 300
      (sim_k8s_manager ∅ (mkSimApi ∅ [] [] 0 1 [Ok ([(output, "")], Some 0)])) in
  spec_cleaned_output output = "done" /\
  spec_stream_output [(output, "")] = output /\
  local.2 = Ok (output, "0") /\
  cluster.2 = Ok (output, "0") /\
  ~ wire_contract 300 (Ok (output, Some 0)) (output, "0").
Proof.
  intros command output local cluster.
  split; [vm_compute; reflexivity|]. split; [vm_compute; reflexivity|].
  split; [vm_compute; reflexivity|]. split; [vm_compute; reflexivity|].
  unfold wire_contract. cbn [decide]. vm_compute. intros Heq. discriminate Heq.
Qed.

(** ** The readiness wait *)

(** The scenarios of the specification on the simulated API server, whose
    clock starts at 0 and advances by one second at each reading. *)
Example wait_pending_pending_running :
  let s := sim_k8s_manager ∅ (mkSimApi ∅ [] ["Pending"; "Pending"; "Running"] 0 1 []) in
  let run := KubernetesManager_wait_for_pod_running "p" 1200 s in
  run.2 = Ok tt /\
  km_calls run.1 = [WatchStream "default" "metadata.name=p" 1200; WatchStop].
Proof. vm_compute. done. Qed.

Example wait_pending_failed :
  let s := sim_k8s_manager ∅ (mkSimApi ∅ [] ["Pending"; "Failed"] 0 1 []) in
  let run := KubernetesManager_wait_for_pod_running "p" 1200 s in
  run.2 = Raise (RuntimeError "Pod 'p' entered terminal phase 'Failed'") /\
  km_calls run.1 = [WatchStream "default" "metadata.name=p" 1200; WatchStop].
Proof. vm_compute. done. Qed.

Example wait_event_after_deadline :
  let s := sim_k8s_manager ∅ (mkSimApi ∅ [] ["Pending"; "Pending"; "Pending"; "Running"] 0 1 []) in
  let run := KubernetesManager_wait_for_pod_running "p" 2 s in
  run.2 = Raise (RuntimeError "Pod 'p' timed out after 2 seconds") /\
  km_calls run.1 = [WatchStream "default" "metadata.name=p" 2; WatchStop].
Proof. vm_compute. done. Qed.

(** C2, where the code departs from it.  The watch is opened with
    [timeout_seconds=timeout], so the server ends the stream at the deadline.
    When the events seen until then are neither Running nor terminal (here a
    single Pending event, handled one second after the start of a wait of
    1200 seconds), the [for] loop runs to its end: the wait returns normally,
    no timeout error is raised, and [w.stop()] is never called. *)
Theorem wait_for_pod_running_stream_ends :
  let s := sim_k8s_manager ∅ (mkSimApi ∅ [] ["Pending"] 0 1 []) in
  let run := KubernetesManager_wait_for_pod_running "p" 1200 s in
  run.2 = Ok tt /\
  km_calls run.1 = [WatchStream "default" "metadata.name=p" 1200] /\
  watch_stops (km_calls run.1) = 0%nat.
Proof. vm_compute. done. Qed.

(** The same on every engine: a stream that ends without an event makes the
    wait return normally, with no call after the opening of the watch. *)
Lemma wait_for_pod_running_empty_stream {E P : Type} `{CoreV1Api E P}
    (pod_name : string) (timeout : Z) (s : KubernetesManager E P) :
  (watch_stream (km_namespace s) ("metadata.name=" +:+ pod_name) timeout
     (time_time (km_client s)).1).2 = ([], None) ->
  let run := KubernetesManager_wait_for_pod_running pod_name timeout s in
  run.2 = Ok tt /\
  km_calls run.1
  = km_calls s ++ [WatchStream (km_namespace s) ("metadata.name=" +:+ pod_name) timeout] /\
  km_pods run.1 = km_pods s.
Proof.
  intros Hstream run. subst run.
  unfold KubernetesManager_wait_for_pod_running, km_with_proxy, with_ProxyManager.
  cbn [get_environ set_environ KubernetesManager_HasEnviron].
  unfold bind, km_call, km_world, modify, get, bind.
  cbn -[ProxyManager_enter ProxyManager_exit ProxyManager_init String.append].
  destruct (time_time (km_client s)) as [e1 now] eqn:Hnow.
  cbn -[ProxyManager_enter ProxyManager_exit ProxyManager_init String.append] in *.
  destruct (watch_stream _ _ _ e1) as [e2 [events ending]] eqn:Hw.
  cbn -[ProxyManager_enter ProxyManager_exit ProxyManager_init String.append] in *.
  injection Hstream as -> ->.
  cbn -[ProxyManager_enter ProxyManager_exit ProxyManager_init String.append]. done.
Qed.

(** ** Pod creation: the retry loop *)

Section CreateLoop.
Context {E P : Type} `{CoreV1Api E P}.
Implicit Types (s : KubernetesManager E P) (body : pod_manifest).

(** One round of the loop. *)
Lemma create_loop_cons body (max_retries attempt : Z) (attempts : list Z)
    (backoff : Z) s :
  create_loop body max_retries (attempt :: attempts) backoff s
  = let answered := create_namespaced_pod (km_namespace s) body (km_client s) in
    let s1 := mkKubernetesManager (km_namespace s) (km_disable_proxy s) (km_pods s)
                answered.1 (km_environ s)
                (km_calls s ++ [CreatePod (km_namespace s) body]) in
    match answered.2 with
    | Ok pod => (s1, Ok (Some pod))
    | Raise e =>
        if retryable_answer answered.2 && (attempt <? max_retries) then
          create_loop body max_retries attempts (Z.min (backoff * 2) 60)
            (km_log (Sleep backoff) s1)
        else (s1, Raise (LibExn e))
    end.
Proof.
  cbn [create_loop]. unfold bind, get, km_call, km_world, modify, bind, km_sleep, modify.
  cbn [km_log km_client km_namespace km_disable_proxy km_pods km_environ km_calls].
  destruct (create_namespaced_pod _ _ _) as [e' [pod|err]]; cbn; [done|].
  destruct err; cbn; try done.
  destruct (retryable_status status && (attempt <? max_retries)); done.
Qed.

Lemma sleeps_app (l1 l2 : list k8s_call) : sleeps (l1 ++ l2) = sleeps l1 ++ sleeps l2.
Proof. unfold sleeps. apply omap_app. Qed.

Lemma create_calls_app (l1 l2 : list k8s_call) :
  create_calls (l1 ++ l2) = (create_calls l1 + create_calls l2)%nat.
Proof. unfold create_calls. by rewrite List.filter_app, length_app. Qed.

(** The whole run of the loop: the calls it adds, what it leaves alone, and
    how its outcome follows from the answers of the engine. *)
Lemma create_loop_run body (max_retries : Z) (attempts : list Z) (backoff : Z) s :
  let run := create_loop body max_retries attempts backoff s in
  exists new : list k8s_call,
    km_calls run.1 = km_calls s ++ new /\
    km_pods run.1 = km_pods s /\
    km_environ run.1 = km_environ s /\
    km_namespace run.1 = km_namespace s /\
    km_disable_proxy run.1 = km_disable_proxy s /\
    Forall (fun call => call = CreatePod (km_namespace s) body \/
                        exists d, call = Sleep d) new /\
    (create_calls new <= length attempts)%nat /\
    backoff_chain backoff (sleeps new) /\
    (length (sleeps new) <= create_calls new)%nat /\
    let answers :=
      create_answers (km_namespace s) body (create_calls new) (km_client s) in
    match run.2 with
    | Ok (Some pod) =>
        exists retried, answers = retried ++ [Ok pod] /\
                        Forall (fun a => retryable_answer a = true) retried /\
                        length (sleeps new) = length retried
    | Ok None =>
        Forall (fun a => retryable_answer a = true) answers /\
        create_calls new = length attempts
    | Raise x =>
        exists retried e, answers = retried ++ [Raise e] /\ x = LibExn e /\
                          Forall (fun a => retryable_answer a = true) retried /\
                          length (sleeps new) = length retried
    end.
Proof.
  revert backoff s. induction attempts as [|attempt attempts IH]; intros backoff s run.
  - exists []. subst run. cbn. rewrite app_nil_r. repeat split; try done; constructor.
  - subst run. rewrite create_loop_cons.
    destruct (create_namespaced_pod (km_namespace s) body (km_client s))
      as [e' a] eqn:Hanswer.
    cbn [fst snd].
    set (s1 := mkKubernetesManager _ _ _ _ _ _).
    destruct a as [pod|err].
    + exists [CreatePod (km_namespace s) body]. cbn.
      repeat split; try done; try lia.
      * constructor; [by left|constructor].
      * rewrite Hanswer. exists []. repeat split; try done.
    + destruct (retryable_answer (Raise err) && (attempt <? max_retries)) eqn:Hretry.
      * apply andb_true_iff in Hretry as [Hretryable Hless].
        destruct (IH (Z.min (backoff * 2) 60) (km_log (Sleep backoff) s1))
          as (new & Hcalls & Hpods & Henv & Hns & Hflag & Hshape & Hcount & Hchain
              & Hsleeps & Hanswers).
        exists (CreatePod (km_namespace s) body :: Sleep backoff :: new).
        cbn [km_log km_calls km_pods km_environ km_namespace km_disable_proxy km_client s1] in *.
        split; [by rewrite Hcalls, <- !app_assoc|].
        repeat split; try done.
        -- constructor; [by left|]. constructor; [right; by eexists|]. done.
        -- change (S (create_calls new) <= S (length attempts))%nat. lia.
        -- change (length (sleeps (CreatePod (km_namespace s) body :: Sleep backoff :: new)))
             with (S (length (sleeps new))).
           change (create_calls (CreatePod (km_namespace s) body :: Sleep backoff :: new))
             with (S (create_calls new)). lia.
        -- change (create_calls (CreatePod (km_namespace s) body :: Sleep backoff :: new))
             with (S (create_calls new)).
           cbn [create_answers]. rewrite Hanswer.
           change (length (sleeps (CreatePod (km_namespace s) body :: Sleep backoff :: new)))
             with (S (length (sleeps new))).
           destruct (create_loop _ _ _ _ _).2 as [[pod|]|x].
           ++ destruct Hanswers as (retried & -> & Hall & Hlen).
              exists (Raise err :: retried). repeat split; try done.
              ** by constructor.
              ** cbn. by rewrite Hlen.
           ++ destruct Hanswers as [Hall Hlen]. split; [by constructor|]. cbn. by rewrite Hlen.
           ++ destruct Hanswers as (retried & e & -> & -> & Hall & Hlen).
              exists (Raise err :: retried), e. repeat split; try done.
              ** by constructor.
              ** cbn. by rewrite Hlen.
      * exists [CreatePod (km_namespace s) body]. cbn.
        repeat split; try done; try lia.
        -- constructor; [by left|constructor].
        -- rewrite Hanswer. exists [], err. repeat split; try done.
Qed.

End CreateLoop.

Lemma backoff_chain_bounds (backoff : Z) (delays : list Z) :
  0 < backoff <= 60 -> backoff_chain backoff delays ->
  Forall (fun d => backoff <= d <= 60) delays.
Proof.
  revert backoff. induction delays as [|d delays IH]; intros backoff Hb Hchain.
  - constructor.
  - destruct Hchain as [-> Hchain]. constructor; [lia|].
    eapply Forall_impl; [apply (IH (Z.min (backoff * 2) 60)); [lia|done]|].
    cbn. intros; lia.
Qed.

Lemma backoff_chain_step (backoff : Z) (delays : list Z) (i : nat) (d d' : Z) :
  backoff_chain backoff delays ->
  delays !! i = Some d -> delays !! S i = Some d' -> d' = Z.min (d * 2) 60.
Proof.
  revert backoff i. induction delays as [|x delays IH]; intros backoff i Hchain Hd Hd'.
  - done.
  - destruct Hchain as [-> Hchain]. destruct i as [|i].
    + injection Hd as ->. destruct delays as [|y delays]; [done|].
      destruct Hchain as [-> _]. by injection Hd' as <-.
    + by apply (IH _ i Hchain).
Qed.

Lemma py_range_length (a b : Z) : length (py_range a b) = Z.to_nat (b - a).
Proof. unfold py_range. by rewrite length_fmap, length_seq. Qed.

Lemma py_range_last (n : Z) : 1 <= n -> last (py_range 1 (n + 1)) = Some n.
Proof.
  intros Hn. unfold py_range.
  replace (Z.to_nat (n + 1 - 1)) with (S (Z.to_nat (n - 1))) by lia.
  rewrite seq_S, fmap_app. cbn [fmap list_fmap]. rewrite last_snoc. f_equal. lia.
Qed.

Section StartPod.
Context {E P : Type} `{CoreV1Api E P}.
Implicit Types (s : KubernetesManager E P) (body : pod_manifest).

(** When the last attempt of the list is attempt number [max_retries], the
    loop never runs to its end. *)
Lemma create_loop_last_attempt body (max_retries : Z) (attempts : list Z)
    (backoff : Z) s :
  last attempts = Some max_retries ->
  (create_loop body max_retries attempts backoff s).2 <> Ok None.
Proof.
  revert backoff s. induction attempts as [|attempt attempts IH]; intros backoff s Hlast.
  - done.
  - rewrite create_loop_cons. cbn zeta.
    destruct (create_namespaced_pod _ _ _) as [e' [pod|err]]; cbn [fst snd]; [done|].
    destruct (retryable_answer (Raise err) && (attempt <? max_retries)) eqn:Hretry; [|done].
    apply andb_true_iff in Hretry as [_ Hless%Z.ltb_lt].
    destruct attempts as [|attempt' attempts].
    + injection Hlast as ->. lia.
    + apply IH. by rewrite last_cons_cons in Hlast.
Qed.

(** What the scope adds around a body: nothing but the environment. *)
Lemma km_with_proxy_run {X A} (body : M X (KubernetesManager E P) A) s :
  let inner :=
    body (set_environ (scope_entry_environ (km_disable_proxy s) (km_environ s)) s) in
  let run := km_with_proxy body s in
  run.2 = inner.2 /\
  km_pods run.1 = km_pods inner.1 /\
  km_calls run.1 = km_calls inner.1 /\
  km_client run.1 = km_client inner.1 /\
  km_namespace run.1 = km_namespace inner.1 /\
  km_disable_proxy run.1 = km_disable_proxy inner.1.
Proof.
  unfold km_with_proxy, with_ProxyManager, scope_entry_environ.
  cbn [get_environ set_environ KubernetesManager_HasEnviron].
  destruct (body _) as [s' r]. by cbn.
Qed.

(** One round of the loop of the wait. *)
Lemma wait_loop_cons (pod_name : string) (timeout : Z) (start_time : Q)
    (phase : string) (events : list string) (ending : option lib_exn) s :
  wait_loop pod_name timeout start_time (phase :: events) ending s
  = let clock := time_time (km_client s) in
    let s1 := mkKubernetesManager (km_namespace s) (km_disable_proxy s) (km_pods s)
                clock.1 (km_environ s) (km_calls s) in
    if negb (Qle_bool (clock.2 - start_time) (inject_Z timeout)) then
      (km_log WatchStop s1,
       Raise (RuntimeError ("Pod '" +:+ pod_name +:+ "' timed out after "
                            +:+ pretty timeout +:+ " seconds")))
    else if String.eqb phase "Running" then (km_log WatchStop s1, Ok tt)
    else if bool_decide (phase ∈ ["Failed"; "Succeeded"; "Unknown"]) then
      (km_log WatchStop s1,
       Raise (RuntimeError ("Pod '" +:+ pod_name +:+ "' entered terminal phase '"
                            +:+ phase +:+ "'")))
    else wait_loop pod_name timeout start_time events ending s1.
Proof.
  cbn [wait_loop]. unfold bind at 1. unfold km_world.
  destruct (time_time (km_client s)) as [e now]. cbn [fst snd].
  destruct (negb (Qle_bool (now - start_time) (inject_Z timeout))); [done|].
  destruct (String.eqb phase "Running"); [done|].
  destruct (bool_decide (phase ∈ ["Failed"; "Succeeded"; "Unknown"])); done.
Qed.

(** The loop of the wait: it adds at most one call, [w.stop()], and leaves
    the manager's own state alone. *)
Lemma wait_loop_run (pod_name : string) (timeout : Z) (start_time : Q)
    (events : list string) (ending : option lib_exn) s :
  let run := wait_loop pod_name timeout start_time events ending s in
  km_pods run.1 = km_pods s /\
  km_environ run.1 = km_environ s /\
  km_namespace run.1 = km_namespace s /\
  km_disable_proxy run.1 = km_disable_proxy s /\
  (km_calls run.1 = km_calls s \/ km_calls run.1 = km_calls s ++ [WatchStop]).
Proof.
  revert s. induction events as [|phase events IH]; intros s run; subst run.
  - cbn. destruct ending; cbn; repeat split; auto.
  - rewrite wait_loop_cons. cbn zeta.
    destruct (time_time (km_client s)) as [e now]. cbn [fst snd].
    set (s1 := mkKubernetesManager _ _ _ _ _ _).
    destruct (negb (Qle_bool (now - start_time) (inject_Z timeout)));
      [cbn; repeat split; auto|].
    destruct (String.eqb phase "Running"); [cbn; repeat split; auto|].
    destruct (bool_decide (phase ∈ ["Failed"; "Succeeded"; "Unknown"]));
      [cbn; repeat split; auto|].
    apply (IH s1).
Qed.

Lemma wait_for_pod_running_run (pod_name : string) (timeout : Z) s :
  let run := KubernetesManager_wait_for_pod_running pod_name timeout s in
  km_pods run.1 = km_pods s /\
  km_namespace run.1 = km_namespace s /\
  km_disable_proxy run.1 = km_disable_proxy s /\
  exists new, km_calls run.1 = km_calls s ++ new /\ create_calls new = 0%nat /\
              sleeps new = [].
Proof.
  intros run. subst run. unfold KubernetesManager_wait_for_pod_running.
  destruct (km_with_proxy_run
    (bind (km_world time_time) (fun start_time =>
       bind get (fun s0 =>
         bind (km_call (WatchStream (km_namespace s0) ("metadata.name=" +:+ pod_name) timeout)
                 (watch_stream (km_namespace s0) ("metadata.name=" +:+ pod_name) timeout))
              (fun stream => wait_loop pod_name timeout start_time stream.1 stream.2)))) s)
    as (_ & -> & -> & _ & -> & ->).
  set (s_in := set_environ _ s).
  match goal with |- context [km_pods (?body s_in).1] =>
    remember (body s_in) as inner eqn:Hinner end.
  unfold km_call in Hinner. unfold bind, km_world, get, modify in Hinner.
  cbn [km_log km_client km_namespace km_disable_proxy km_pods km_environ km_calls]
    in Hinner.
  destruct (time_time (km_client s_in)) as [e1 start_time].
  destruct (watch_stream _ _ _ _) as [e2 [events ending]]. cbn [fst snd] in Hinner.
  match type of Hinner with _ = wait_loop _ _ _ _ _ ?s2 =>
    destruct (wait_loop_run pod_name timeout start_time events ending s2)
      as (Hpods & _ & Hns & Hflag & Hcalls) end.
  rewrite <- Hinner in *. cbn in Hpods, Hns, Hflag, Hcalls.
  repeat split; try done.
  destruct Hcalls as [-> | ->]; eexists; (split; [by rewrite <- ?app_assoc|]); done.
Qed.

(** The run of [start_pod], path by path. *)
Lemma start_pod_run (name image command : string) (environment : option strdict)
    (resources : option (gmap string (gmap string string)))
    (node_selector : option strdict) (max_retries timeout : Z) s :
  let body := create_pod_spec name image command environment resources node_selector in
  let answered := read_namespaced_pod name (km_namespace s) (km_client s) in
  let s_r :=
    mkKubernetesManager (km_namespace s) (km_disable_proxy s) (km_pods s) answered.1
      (scope_entry_environ (km_disable_proxy s) (km_environ s))
      (km_calls s ++ [ReadPod name (km_namespace s)]) in
  let run :=
    KubernetesManager_start_pod name image command environment resources node_selector
      max_retries timeout s in
  match answered.2 with
  | Ok pod =>
      run.2 = Ok pod /\ km_pods run.1 = <[name := pod]> (km_pods s) /\
      km_calls run.1 = km_calls s_r /\ km_client run.1 = answered.1
  | Raise e =>
      if not_found e then
        let created := create_loop body max_retries (py_range 1 (max_retries + 1)) 5 s_r in
        match created.2 with
        | Ok (Some pod) =>
            let waited := KubernetesManager_wait_for_pod_running name timeout created.1 in
            km_calls run.1 = km_calls waited.1 /\
            km_client run.1 = km_client waited.1 /\
            match waited.2 with
            | Ok _ => run.2 = Ok pod /\ km_pods run.1 = <[name := pod]> (km_pods s)
            | Raise x => run.2 = Raise x /\ km_pods run.1 = km_pods s
            end
        | Ok None =>
            run.2 = Raise (RuntimeError ("Exceeded retry limit (" +:+ pretty max_retries
                                         +:+ ") creating pod '" +:+ name +:+ "'")) /\
            km_pods run.1 = km_pods s /\ km_calls run.1 = km_calls created.1
        | Raise x =>
            run.2 = Raise x /\ km_pods run.1 = km_pods s /\
            km_calls run.1 = km_calls created.1
        end
      else
        run.2 = Raise (LibExn e) /\ km_pods run.1 = km_pods s /\
        km_calls run.1 = km_calls s_r
  end.
Proof.
  intros body answered s_r run. subst run. unfold KubernetesManager_start_pod.
  match goal with |- context [km_with_proxy ?b s] =>
    destruct (km_with_proxy_run b s) as (-> & -> & -> & -> & _ & _);
    remember (b (set_environ (scope_entry_environ (km_disable_proxy s) (km_environ s)) s))
      as inner eqn:Hinner
  end.
  unfold km_call in Hinner. unfold bind at 1 2 3, get at 1, modify at 1, km_world at 1 in Hinner.
  cbn [km_log km_client km_namespace km_disable_proxy km_pods km_environ km_calls
       set_environ KubernetesManager_HasEnviron] in Hinner.
  fold answered in Hinner. destruct answered as [e' a] eqn:Hanswer.
  cbn [fst snd] in *. fold s_r in Hinner.
  destruct a as [pod|err].
  - subst inner. by cbn.
  - assert (Hskip :
      forall (k : M exn (KubernetesManager E P) P),
        bind (match err with
              | ApiException status _ =>
                  if decide (status <> 404) then raise (LibExn err) else ret tt
              | _ => raise (LibExn err)
              end) (fun _ => k) s_r
        = if not_found err then k s_r else (s_r, Raise (LibExn err))).
    { intros k. unfold bind, not_found. destruct err as [status d|d|d]; try done.
      case_decide; case_bool_decide; done. }
    rewrite Hskip in Hinner. clear Hskip.
    destruct (not_found err); [|subst inner; by cbn].
    fold body in Hinner. unfold bind at 1 in Hinner.
    destruct (create_loop_run body max_retries (py_range 1 (max_retries + 1)) 5 s_r)
      as (new & _ & Hpods & _).
    destruct (create_loop body max_retries (py_range 1 (max_retries + 1)) 5 s_r)
      as [s_c [[pod|]|x]]; cbn [fst snd] in *; try (subst inner; by cbn).
    unfold bind at 1 in Hinner.
    destruct (wait_for_pod_running_run name timeout s_c) as (Hpods' & _).
    destruct (KubernetesManager_wait_for_pod_running name timeout s_c) as [s_w [[]|x]];
      cbn [fst snd] in *; subst inner; cbn; rewrite ?Hpods', ?Hpods; done.
Qed.

End StartPod.

Section RetryPolicy.
Context {E P : Type} `{CoreV1Api E P}.
Implicit Types (s : KubernetesManager E P) (body : pod_manifest).

Lemma create_answers_length (namespace : string) body (n : nat) (e : E) :
  length (create_answers namespace body n e) = n.
Proof.
  revert e. induction n as [|n IH]; intros e; cbn; [done|].
  destruct (create_namespaced_pod namespace body e). cbn. by rewrite IH.
Qed.

Lemma retryable_answer_status (a : answer P) :
  retryable_answer a = true ->
  exists status descr,
    a = Raise (ApiException status descr) /\ status ∈ [409; 429; 500; 503].
Proof.
  destruct a as [pod|[status descr|d|d]]; try done. cbn. unfold retryable_status.
  intros Hstatus%bool_decide_eq_true. by exists status, descr.
Qed.

(** The wait raises no [RuntimeError] but its own two. *)
Lemma wait_loop_raises (pod_name : string) (timeout : Z) (start_time : Q)
    (events : list string) (ending : option lib_exn) s (msg : string) :
  (wait_loop pod_name timeout start_time events ending s).2 = Raise (RuntimeError msg) ->
  exists rest, msg = "Pod '" +:+ rest.
Proof.
  revert s. induction events as [|phase events IH]; intros s.
  - cbn. by destruct ending.
  - rewrite wait_loop_cons. cbn zeta.
    destruct (negb _); [cbn; intros [= <-]; by eexists|].
    destruct (String.eqb phase "Running"); [done|].
    destruct (bool_decide _); [cbn; intros [= <-]; by eexists|].
    apply IH.
Qed.

Lemma wait_for_pod_running_raises (pod_name : string) (timeout : Z) s (msg : string) :
  (KubernetesManager_wait_for_pod_running pod_name timeout s).2 = Raise (RuntimeError msg) ->
  exists rest, msg = "Pod '" +:+ rest.
Proof.
  unfold KubernetesManager_wait_for_pod_running.
  match goal with |- context [km_with_proxy ?b s] =>
    destruct (km_with_proxy_run b s) as (-> & _);
    remember (b (set_environ (scope_entry_environ (km_disable_proxy s) (km_environ s)) s))
      as inner eqn:Hinner
  end.
  unfold km_call in Hinner. unfold bind, km_world, get, modify in Hinner.
  cbn [km_log km_client km_namespace km_disable_proxy km_pods km_environ km_calls]
    in Hinner.
  destruct (time_time _) as [e1 start_time].
  destruct (watch_stream _ _ _ _) as [e2 [events ending]]. cbn [fst snd] in Hinner.
  subst inner. apply wait_loop_raises.
Qed.

(** C9. With a retry budget of at least one attempt the creation loop never
    runs to its end: it leaves by [break] with the pod created, or by
    re-raising the exception of the engine, so the [else] branch and its
    "Exceeded retry limit" error are never reached; [start_pod] never raises
    that error. *)
Theorem retry_exhaustion_unreachable
    (name image command : string) (environment : option strdict)
    (resources : option (gmap string (gmap string string)))
    (node_selector : option strdict) (max_retries timeout : Z) s :
  1 <= max_retries ->
  (forall body backoff s',
     let created := create_loop body max_retries (py_range 1 (max_retries + 1)) backoff s' in
     created.2 <> Ok None /\
     ((exists pod, created.2 = Ok (Some pod)) \/ (exists e, created.2 = Raise (LibExn e)))) /\
  (KubernetesManager_start_pod name image command environment resources node_selector
     max_retries timeout s).2
  <> Raise (RuntimeError ("Exceeded retry limit (" +:+ pretty max_retries
                          +:+ ") creating pod '" +:+ name +:+ "'")).
Proof.
  intros Hbudget.
  assert (Hloop : forall body backoff s',
    (create_loop body max_retries (py_range 1 (max_retries + 1)) backoff s').2 <> Ok None).
  { intros body backoff s'. apply create_loop_last_attempt. by apply py_range_last. }
  split.
  - intros body backoff s' created. split; [apply Hloop|].
    pose proof (Hloop body backoff s') as Hnot.
    destruct (create_loop_run body max_retries (py_range 1 (max_retries + 1)) backoff s')
      as (new & _ & _ & _ & _ & _ & _ & _ & _ & _ & Houtcome).
    subst created. cbn zeta in Houtcome.
    destruct (create_loop _ _ _ _ _).2 as [[pod|]|x]; [left; by eexists|done|].
    destruct Houtcome as (retried & e & _ & -> & _). right. by eexists.
  - pose proof (start_pod_run name image command environment resources node_selector
                  max_retries timeout s) as Hrun.
    cbn zeta in Hrun.
    destruct (read_namespaced_pod name (km_namespace s) (km_client s)).2 as [pod|e].
    { destruct Hrun as (-> & _). done. }
    destruct (not_found e); [|destruct Hrun as (-> & _); done].
    match type of Hrun with context [create_loop ?b ?n ?l ?k ?s0] =>
      pose proof (Hloop b k s0) as Hnot;
      destruct (create_loop_run b n l k s0)
        as (new & _ & _ & _ & _ & _ & _ & _ & _ & _ & Houtcome);
      cbn zeta in Houtcome;
      destruct (create_loop b n l k s0) as [s_c [[pod|]|x]]
    end; cbn [fst snd] in *.
    + destruct Hrun as (_ & _ & Hrun).
      pose proof (wait_for_pod_running_raises name timeout s_c) as Hwait.
      destruct (KubernetesManager_wait_for_pod_running name timeout s_c).2 as [[]|x].
      * destruct Hrun as [-> _]. done.
      * destruct Hrun as [-> _]. intros [= ->].
        destruct (Hwait _ eq_refl) as [rest Hrest]. cbn in Hrest. discriminate.
    + done.
    + destruct Hrun as (-> & _). destruct Houtcome as (retried & e0 & _ & -> & _). done.
Qed.

(** The creation path of [start_pod] (the lookup answered "not found"),
    with retry budget [max_retries].  The delays slept by the loop start at
    5, each is the double of the one before capped at 60, so they never
    decrease and never exceed 60; at most [max_retries] creation calls are
    issued; an answer that is followed by another attempt is an API error
    with status 409, 429, 500 or 503, and any other error is the last answer
    and is re-raised as it is. *)
Theorem pod_creation_retry_policy
    (name image command : string) (environment : option strdict)
    (resources : option (gmap string (gmap string string)))
    (node_selector : option strdict) (max_retries : Z) s :
  let body := create_pod_spec name image command environment resources node_selector in
  let answered := read_namespaced_pod name (km_namespace s) (km_client s) in
  let s_r :=
    mkKubernetesManager (km_namespace s) (km_disable_proxy s) (km_pods s) answered.1
      (scope_entry_environ (km_disable_proxy s) (km_environ s))
      (km_calls s ++ [ReadPod name (km_namespace s)]) in
  let created := create_loop body max_retries (py_range 1 (max_retries + 1)) 5 s_r in
  exists new,
    km_calls created.1 = km_calls s_r ++ new /\
    let delays := sleeps new in
    let answers := create_answers (km_namespace s) body (create_calls new) answered.1 in
    (forall d, head delays = Some d -> d = 5) /\
    (forall i d d', delays !! i = Some d -> delays !! S i = Some d' ->
                    d' = Z.min (d * 2) 60 /\ d <= d') /\
    Forall (fun d => d <= 60) delays /\
    (create_calls new <= Z.to_nat max_retries)%nat /\
    (forall i a, answers !! i = Some a -> (S i < create_calls new)%nat ->
       exists status descr,
         a = Raise (ApiException status descr) /\ status ∈ [409; 429; 500; 503]) /\
    (forall i e, answers !! i = Some (Raise e) -> retryable_answer (P := P) (Raise e) = false ->
       S i = create_calls new /\ created.2 = Raise (LibExn e)).
Proof.
  intros body answered s_r created.
  destruct (create_loop_run body max_retries (py_range 1 (max_retries + 1)) 5 s_r)
    as (new & Hcalls & _ & _ & _ & _ & _ & Hcount & Hchain & _ & Houtcome).
  fold created in Hcalls, Houtcome. cbn zeta in Houtcome.
  change (km_namespace s_r) with (km_namespace s) in Houtcome.
  change (km_client s_r) with answered.1 in Houtcome.
  exists new. split; [done|]. cbn zeta.
  pose proof (backoff_chain_bounds 5 (sleeps new) ltac:(lia) Hchain) as Hbounds.
  split; [|split; [|split; [|split; [|split]]]].
  - intros d Hd. destruct (sleeps new) as [|d0 delays]; [done|].
    destruct Hchain as [-> _]. by injection Hd as <-.
  - intros i d d' Hd Hd'.
    pose proof (backoff_chain_step _ _ _ _ _ Hchain Hd Hd') as ->.
    split; [done|].
    rewrite Forall_lookup in Hbounds. specialize (Hbounds _ _ Hd). cbn in Hbounds. lia.
  - eapply Forall_impl; [exact Hbounds|]. cbn. intros; lia.
  - rewrite py_range_length in Hcount. replace (max_retries + 1 - 1) with max_retries in Hcount by lia.
    done.
  - intros i a Ha Hi.
    pose proof (create_answers_length (km_namespace s) body (create_calls new) answered.1)
      as Hlen.
    apply retryable_answer_status.
    destruct created.2 as [[pod|]|x].
    + destruct Houtcome as (retried & Heq & Hall & _).
      rewrite Heq in Ha, Hlen. rewrite length_app in Hlen. cbn in Hlen.
      rewrite lookup_app_l in Ha by lia.
      rewrite Forall_lookup in Hall. by apply (Hall i).
    + destruct Houtcome as [Hall _]. rewrite Forall_lookup in Hall. by apply (Hall i).
    + destruct Houtcome as (retried & e & Heq & _ & Hall & _).
      rewrite Heq in Ha, Hlen. rewrite length_app in Hlen. cbn in Hlen.
      rewrite lookup_app_l in Ha by lia.
      rewrite Forall_lookup in Hall. by apply (Hall i).
  - intros i e Ha Hnot.
    pose proof (create_answers_length (km_namespace s) body (create_calls new) answered.1)
      as Hlen.
    assert (Hin : forall retried : list (answer P),
              Forall (fun a => retryable_answer a = true) retried ->
              retried !! i = Some (Raise e) -> False).
    { intros retried Hall Hi. rewrite Forall_lookup in Hall.
      specialize (Hall _ _ Hi). cbn beta in Hall. rewrite Hnot in Hall. done. }
    destruct created.2 as [[pod|]|x].
    + destruct Houtcome as (retried & Heq & Hall & _). rewrite Heq in Ha.
      apply lookup_app_Some in Ha as [Ha | [_ Ha]]; [by destruct (Hin _ Hall Ha)|].
      destruct (i - length retried)%nat; done.
    + destruct Houtcome as [Hall _]. by destruct (Hin _ Hall Ha).
    + destruct Houtcome as (retried & e0 & Heq & -> & Hall & _).
      rewrite Heq in Ha, Hlen. rewrite length_app in Hlen. cbn in Hlen.
      apply lookup_app_Some in Ha as [Ha | [Hge Ha]]; [by destruct (Hin _ Hall Ha)|].
      destruct (i - length retried)%nat as [|k] eqn:Hk; [|done].
      injection Ha as ->. split; [lia|done].
Qed.

End RetryPolicy.

(** One attempt allowed, answered by a conflict: the error of the engine is
    re-raised. *)
Lemma retry_exhaustion_unreachable_witness :
  let s := sim_k8s_manager ∅ (mkSimApi ∅ [409] [] 0 1 []) in
  (KubernetesManager_start_pod "p" "img" "sleep infinity" None None None 1 1200 s).2
  <> Raise (RuntimeError "Exceeded retry limit (1) creating pod 'p'").
Proof.
  intros s.
  apply (retry_exhaustion_unreachable "p" "img" "sleep infinity" None None None 1 1200 s).
  lia.
Defined.

(** The scenario of the specification: the creation is answered 409 twice
    and succeeds at the third attempt; the watch reports Pending, then
    Running. *)
Example start_pod_conflict_twice :
  let s := sim_k8s_manager ∅ (mkSimApi ∅ [409; 409] ["Pending"; "Running"] 0 1 []) in
  let run := KubernetesManager_start_pod "p" "img" "sleep infinity" None None None 5 1200 s in
  let body := create_pod_spec "p" "img" "sleep infinity" None None None in
  run.2 = Ok body /\
  km_pods run.1 = {[ "p" := body ]} /\
  km_calls run.1
  = [ReadPod "p" "default"; CreatePod "default" body; Sleep 5; CreatePod "default" body;
     Sleep 10; CreatePod "default" body;
     WatchStream "default" "metadata.name=p" 1200; WatchStop].
Proof. vm_compute. done. Qed.

(** C3, where the code departs from it.  The pod is registered as soon as
    [_wait_for_pod_running] returns, and it also returns when the stream of
    the watch ends without a Running event (the defect of the readiness
    wait).  Here the lookup answers "not found", the creation succeeds at
    the first attempt, and the watch delivers one Pending event and ends:
    [start_pod] returns the pod and registers it, though no Running event
    was seen and the wait neither stopped the watch nor raised. *)
Theorem start_pod_registers_without_running :
  let s := sim_k8s_manager ∅ (mkSimApi ∅ [] ["Pending"] 0 1 []) in
  let run := KubernetesManager_start_pod "p" "img" "sleep infinity" None None None 5 1200 s in
  let body := create_pod_spec "p" "img" "sleep infinity" None None None in
  (watch_stream "default" "metadata.name=p" 1200 (km_client run.1)).2 = (["Pending"], None) /\
  run.2 = Ok body /\
  km_pods run.1 = {[ "p" := body ]} /\
  km_calls run.1
  = [ReadPod "p" "default"; CreatePod "default" body;
     WatchStream "default" "metadata.name=p" 1200] /\
  watch_stops (km_calls run.1) = 0%nat.
Proof. vm_compute. done. Qed.

(** ** Pod deletion *)

(** C8. [delete_pod] issues one deletion call.  When the API server answers
    "not found" (status 404) the method returns without error; any other
    API error, and any other exception, goes on to the caller; when the
    deletion succeeds the name is no longer in the registry.  In the two
    error cases the registry is as before. *)
Theorem delete_pod_outcomes {E P : Type} `{CoreV1Api E P}
    (pod_name : string) (grace_period : Z) (s : KubernetesManager E P) :
  let answered :=
    delete_namespaced_pod pod_name (km_namespace s) grace_period (km_client s) in
  let run := KubernetesManager_delete_pod pod_name grace_period s in
  km_calls run.1 = km_calls s ++ [DeletePod pod_name (km_namespace s) grace_period] /\
  km_client run.1 = answered.1 /\
  match answered.2 with
  | Ok _ =>
      run.2 = Ok tt /\ km_pods run.1 = delete pod_name (km_pods s) /\
      km_pods run.1 !! pod_name = None
  | Raise e =>
      km_pods run.1 = km_pods s /\
      run.2 = if not_found e then Ok tt else Raise (LibExn e)
  end.
Proof.
  intros answered run. subst run. unfold KubernetesManager_delete_pod.
  match goal with |- context [km_with_proxy ?b s] =>
    destruct (km_with_proxy_run b s) as (-> & -> & -> & -> & _ & _);
    remember (b (set_environ (scope_entry_environ (km_disable_proxy s) (km_environ s)) s))
      as inner eqn:Hinner
  end.
  unfold km_call in Hinner. unfold bind at 1 2 3, get at 1, modify at 1, km_world at 1 in Hinner.
  cbn [km_log km_client km_namespace km_disable_proxy km_pods km_environ km_calls
       set_environ KubernetesManager_HasEnviron] in Hinner.
  fold answered in Hinner. destruct answered as [e' [[]|err]]; cbn [fst snd] in *.
  - unfold bind, get in Hinner. cbn [km_pods] in Hinner.
    destruct (km_pods s !! pod_name) as [pod|] eqn:Hpod; subst inner; cbn.
    + repeat split; try done. apply lookup_delete_eq.
    + rewrite delete_id by done. done.
  - destruct err as [status descr|d|d]; cbn [not_found]; try (subst inner; by cbn).
    case_decide; case_bool_decide; try done; subst inner; by cbn.
Qed.

(** ** Stopping a container *)

Section StopContainer.
Context {E C : Type} `{DockerClient E C}.

(** The run of [stop_container], path by path. *)
Lemma stop_container_run (container_name : string) (s : DockerManager E C) :
  let run := DockerManager_stop_container container_name s in
  run.2 = Ok tt /\
  match dm_containers s !! container_name with
  | None => run.1 = s
  | Some container =>
      let stopped := container_stop container (dm_client s) in
      match stopped.2 with
      | Raise e =>
          run.1 = mkDockerManager stopped.1 (dm_containers s)
                    (dm_calls s ++ [ContainerStop container])
                    (dm_stdout s ++ ["Container stop/delete error: " +:+ repr e])
      | Ok _ =>
          let removed := container_remove container stopped.1 in
          match removed.2 with
          | Raise e =>
              run.1 = mkDockerManager removed.1 (dm_containers s)
                        (dm_calls s ++ [ContainerStop container; ContainerRemove container])
                        (dm_stdout s ++ ["Container stop/delete error: " +:+ repr e])
          | Ok _ =>
              run.1 = mkDockerManager removed.1 (delete container_name (dm_containers s))
                        (dm_calls s ++ [ContainerStop container; ContainerRemove container])
                        (dm_stdout s)
          end
      end
  end.
Proof.
  intros run. subst run.
  unfold DockerManager_stop_container, try_except, dm_print, dm_call, bind, get, modify, ret.
  destruct (dm_containers s !! container_name) as [container|]; [|done].
  destruct (container_stop container (dm_client s)) as [e1 [[]|err]]; cbn; [|done].
  destruct (container_remove container e1) as [e2 [[]|err]]; cbn;
    by rewrite <- app_assoc.
Qed.

(** C10. For a name that is not registered, [stop_container] returns without
    error and leaves everything as it was: no call is issued, the registry,
    the engine and the output are unchanged.  For any name, the only calls
    it ever issues are the stop and the removal of the container registered
    under that name. *)
Theorem stop_container_only_registered (container_name : string) (s : DockerManager E C) :
  (dm_containers s !! container_name = None ->
   DockerManager_stop_container container_name s = (s, Ok tt)) /\
  exists new,
    dm_calls (DockerManager_stop_container container_name s).1 = dm_calls s ++ new /\
    Forall (fun call =>
              exists container,
                dm_containers s !! container_name = Some container /\
                (call = ContainerStop container \/ call = ContainerRemove container))
           new.
Proof.
  destruct (stop_container_run container_name s) as [Hres Hrun]. cbn zeta in Hrun.
  split.
  - intros Hnone. rewrite Hnone in Hrun.
    destruct (DockerManager_stop_container container_name s) as [s' r].
    cbn in *. by subst.
  - destruct (dm_containers s !! container_name) as [container|].
    + destruct (container_stop container (dm_client s)).2 as [[]|err].
      * destruct (container_remove container _).2 as [[]|err]; rewrite Hrun; cbn;
          (eexists; split; [done|]);
          (constructor; [exists container; auto|constructor; [exists container; auto|constructor]]).
      * rewrite Hrun. cbn. eexists; split; [done|].
        constructor; [exists container; auto|constructor].
    + rewrite Hrun. exists []. split; [by rewrite app_nil_r|constructor].
Qed.

End StopContainer.

(** A manager that has registered nothing is asked to stop a container that
    exists in the engine: the engine is not called. *)
Lemma stop_container_only_registered_witness :
  let e := mkSimDocker {[ "other" := "running" ]} [] [] 1 [] in
  DockerManager_stop_container "other" (sim_docker_manager e)
  = (sim_docker_manager e, Ok tt).
Proof.
  intros e.
  apply (stop_container_only_registered "other" (sim_docker_manager e)).
  vm_compute. reflexivity.
Defined.

(** ** Starting a container *)

Section StartContainer.
Context {E C : Type} `{DockerClient E C}.

(** The run of [start_container] under a given name, path by path. *)
Lemma start_container_run (image command name : string)
    (environment : option strdict) (s : DockerManager E C) :
  let run := DockerManager_start_container image command (Some name) environment s in
  let listed := containers_list name (dm_client s) in
  let failed e e' new :=
    run = (mkDockerManager e' (dm_containers s) (dm_calls s ++ new)
             (dm_stdout s ++ ["Container start error: " +:+ repr e]), Raise e) in
  let started container e' new :=
    run = (mkDockerManager e' (<[name := container]> (dm_containers s))
             (dm_calls s ++ new) (dm_stdout s), Ok container) in
  match listed.2 with
  | Raise e => failed e listed.1 [ContainersList name]
  | Ok (container :: _) =>
      if negb (String.eqb (container_status container) "running") then
        let answered := container_start container listed.1 in
        match answered.2 with
        | Ok _ => started container answered.1 [ContainersList name; ContainerStart container]
        | Raise e => failed e answered.1 [ContainersList name; ContainerStart container]
        end
      else started container listed.1 [ContainersList name]
  | Ok [] =>
      let env := merged_environment environment in
      let answered := containers_run image command name env listed.1 in
      match answered.2 with
      | Ok container =>
          started container answered.1
            [ContainersList name; ContainersRun image command name env]
      | Raise e =>
          failed e answered.1 [ContainersList name; ContainersRun image command name env]
      end
  end.
Proof.
  intros run listed failed started. subst run failed started listed.
  unfold DockerManager_start_container, try_except, dm_print, dm_call, bind, get, modify, ret,
    raise, dm_set_containers.
  destruct (containers_list name (dm_client s)) as [e1 [[|container l]|err]]; cbn [fst snd].
  - assert (Henv :
      match environment with
      | Some environment0 =>
          if decide (environment0 = ∅) then ({[ "PATH" := DEFAULT_DOCKER_PATH ]} : strdict)
          else environment0 ∪ {[ "PATH" := DEFAULT_DOCKER_PATH ]}
      | None => {[ "PATH" := DEFAULT_DOCKER_PATH ]}
      end = merged_environment environment).
    { unfold merged_environment. destruct environment as [user|]; cbn.
      - case_decide as Hempty; [|done]. by rewrite Hempty, (left_id_L ∅ (∪)).
      - by rewrite (left_id_L ∅ (∪)). }
    cbn [dm_client dm_containers dm_calls dm_stdout]. rewrite Henv.
    destruct (containers_run _ _ _ _ e1) as [e2 [container|err]]; cbn;
      by rewrite <- app_assoc.
  - cbn [dm_client dm_containers dm_calls dm_stdout].
    destruct (negb (String.eqb (container_status container) "running"));
      cbn [dm_client dm_containers dm_calls dm_stdout]; [|done].
    destruct (container_start container e1) as [e2 [[]|err]]; cbn;
      by rewrite <- app_assoc.
  - done.
Qed.

End StartContainer.

(** ** The environment handed to the engine *)





(** ** Starting twice under the same name *)

Lemma run_calls_app {C} (l1 l2 : list (docker_call C)) :
  run_calls (l1 ++ l2) = (run_calls l1 + run_calls l2)%nat.
Proof. unfold run_calls. by rewrite List.filter_app, length_app. Qed.

Section StartTwiceLocal.
Context {E C : Type} `{DockerKeepsContainers E C}.

Lemma start_container_exists (image command name : string)
    (environment : option strdict) (s s1 : DockerManager E C) (c : C) :
  DockerManager_start_container image command (Some name) environment s = (s1, Ok c) ->
  container_exists (dm_client s1) name /\
  (run_calls (dm_calls s1) <= run_calls (dm_calls s) + 1)%nat.
Proof.
  intros Hstart.
  pose proof (start_container_run image command name environment s) as Hrun.
  cbn zeta in Hrun. rewrite Hstart in Hrun.
  destruct (containers_list name (dm_client s)) as [e1 [[|container l]|err]] eqn:Hlist;
    cbn [fst snd] in Hrun.
  - destruct (containers_run _ _ _ _ e1) as [e2 [container|err]] eqn:Hnew;
      cbn [fst snd] in Hrun; [|done].
    injection Hrun as -> ->. cbn [dm_client dm_calls]. split; [by eapply run_creates|].
    rewrite run_calls_app. cbn. lia.
  - destruct (negb _).
    + destruct (container_start container e1) as [e2 [[]|err]] eqn:Hstarted;
        cbn [fst snd] in Hrun; [|done].
      injection Hrun as -> ->. cbn [dm_client dm_calls]. split.
      * replace e2 with (container_start container e1).1 by by rewrite Hstarted.
        apply start_keeps. by eapply list_shows.
      * rewrite run_calls_app. cbn. lia.
    + injection Hrun as -> ->. cbn [dm_client dm_calls]. split; [by eapply list_shows|].
      rewrite run_calls_app. cbn. lia.
  - done.
Qed.

Lemma start_container_reuses (image command name : string)
    (environment : option strdict) (s : DockerManager E C) :
  container_exists (dm_client s) name ->
  let run := DockerManager_start_container image command (Some name) environment s in
  let listed := containers_list name (dm_client s) in
  match listed.2 with
  | Raise e => run.2 = Raise e /\ dm_calls run.1 = dm_calls s ++ [ContainersList name]
  | Ok [] => False
  | Ok (container :: _) =>
      if negb (String.eqb (container_status container) "running") then
        dm_calls run.1 = dm_calls s ++ [ContainersList name; ContainerStart container] /\
        match (container_start container listed.1).2 with
        | Ok _ => run.2 = Ok container /\
                  dm_containers run.1 = <[name := container]> (dm_containers s)
        | Raise e => run.2 = Raise e
        end
      else
        dm_calls run.1 = dm_calls s ++ [ContainersList name] /\
        run.2 = Ok container /\
        dm_containers run.1 = <[name := container]> (dm_containers s)
  end.
Proof.
  intros Hexists run listed. subst run listed.
  pose proof (start_container_run image command name environment s) as Hrun.
  cbn zeta in Hrun.
  destruct (containers_list name (dm_client s)) as [e1 [[|container l]|err]] eqn:Hlist;
    cbn [fst snd] in *.
  - by eapply list_finds.
  - destruct (negb _).
    + destruct (container_start container e1) as [e2 [[]|err]]; cbn [fst snd] in *;
        by rewrite Hrun.
    + by rewrite Hrun.
  - by rewrite Hrun.
Qed.

End StartTwiceLocal.

Section StartTwiceCluster.
Context {E P : Type} `{ApiKeepsPods E P}.
Implicit Types (s : KubernetesManager E P) (body : pod_manifest).

Lemma create_loop_exists body (max_retries : Z) (attempts : list Z) (backoff : Z) s
    (pod : P) :
  (create_loop body max_retries attempts backoff s).2 = Ok (Some pod) ->
  pod_exists (km_client (create_loop body max_retries attempts backoff s).1)
    (pm_metadata_name body) (km_namespace s).
Proof.
  revert backoff s. induction attempts as [|attempt attempts IH]; intros backoff s.
  - done.
  - rewrite create_loop_cons. cbn zeta.
    destruct (create_namespaced_pod _ _ _) as [e' [pod'|err]] eqn:Hcreate; cbn [fst snd].
    + intros _. cbn. by eapply create_creates.
    + destruct (retryable_answer (Raise err) && (attempt <? max_retries)); [|done].
      intros Hok. by apply IH in Hok.
Qed.

Lemma wait_loop_keeps (pod_name : string) (timeout : Z) (start_time : Q)
    (events : list string) (ending : option lib_exn) s (name namespace : string) :
  pod_exists (km_client s) name namespace ->
  pod_exists (km_client (wait_loop pod_name timeout start_time events ending s).1)
    name namespace.
Proof.
  revert s. induction events as [|phase events IH]; intros s Hexists.
  - cbn. by destruct ending.
  - rewrite wait_loop_cons. cbn zeta.
    pose proof (clock_keeps name namespace (km_client s) Hexists) as Hclock.
    destruct (negb _); [done|].
    destruct (String.eqb phase "Running"); [done|].
    destruct (bool_decide _); [done|].
    by apply IH.
Qed.

Lemma wait_for_pod_running_keeps (pod_name : string) (timeout : Z) s
    (name namespace : string) :
  pod_exists (km_client s) name namespace ->
  pod_exists (km_client (KubernetesManager_wait_for_pod_running pod_name timeout s).1)
    name namespace.
Proof.
  intros Hexists. unfold KubernetesManager_wait_for_pod_running.
  match goal with |- context [km_with_proxy ?b s] =>
    destruct (km_with_proxy_run b s) as (_ & _ & _ & -> & _);
    remember (b (set_environ (scope_entry_environ (km_disable_proxy s) (km_environ s)) s))
      as inner eqn:Hinner
  end.
  unfold km_call in Hinner. unfold bind, km_world, get, modify in Hinner.
  cbn [km_log km_client km_namespace km_disable_proxy km_pods km_environ km_calls
       set_environ KubernetesManager_HasEnviron] in Hinner.
  pose proof (clock_keeps name namespace (km_client s) Hexists) as Hclock.
  destruct (time_time (km_client s)) as [e1 start_time].
  cbn [fst snd km_log km_client km_namespace km_disable_proxy km_pods km_environ km_calls] in *.
  match type of Hinner with context [watch_stream ?ns ?sel ?t e1] =>
    pose proof (watch_keeps name namespace ns sel t e1 Hclock) as Hwatch;
    destruct (watch_stream ns sel t e1) as [e2 [events ending]]
  end.
  cbn [fst snd] in *. subst inner. by apply wait_loop_keeps.
Qed.

Lemma start_pod_namespace (name image command : string) (environment : option strdict)
    (resources : option (gmap string (gmap string string)))
    (node_selector : option strdict) (max_retries timeout : Z) s :
  km_namespace (KubernetesManager_start_pod name image command environment resources
                  node_selector max_retries timeout s).1 = km_namespace s.
Proof.
  unfold KubernetesManager_start_pod.
  match goal with |- context [km_with_proxy ?b s] =>
    destruct (km_with_proxy_run b s) as (_ & _ & _ & _ & -> & _);
    remember (b (set_environ (scope_entry_environ (km_disable_proxy s) (km_environ s)) s))
      as inner eqn:Hinner
  end.
  unfold km_call in Hinner. unfold bind at 1 2 3, get at 1, modify at 1, km_world at 1 in Hinner.
  cbn [km_log km_client km_namespace km_disable_proxy km_pods km_environ km_calls
       set_environ KubernetesManager_HasEnviron] in Hinner.
  destruct (read_namespaced_pod _ _ _) as [e' [pod|err]]; cbn [fst snd] in Hinner.
  - subst inner. by cbn.
  - set (s_r := mkKubernetesManager _ _ _ _ _ _) in Hinner.
    assert (Hskip :
      forall (k : M exn (KubernetesManager E P) P),
        bind (match err with
              | ApiException status _ =>
                  if decide (status <> 404) then raise (LibExn err) else ret tt
              | _ => raise (LibExn err)
              end) (fun _ => k) s_r
        = if not_found err then k s_r else (s_r, Raise (LibExn err))).
    { intros k. unfold bind, not_found. destruct err as [status d|d|d]; try done.
      case_decide; case_bool_decide; done. }
    rewrite Hskip in Hinner. clear Hskip.
    destruct (not_found err); [|subst inner; by cbn].
    unfold bind at 1 in Hinner.
    match type of Hinner with context [create_loop ?b ?n ?l ?k s_r] =>
      destruct (create_loop_run b n l k s_r) as (new & _ & _ & _ & Hns & _);
      destruct (create_loop b n l k s_r) as [s_c [[pod|]|x]]
    end; cbn [fst snd] in *; try (subst inner; cbn; by rewrite Hns).
    unfold bind at 1 in Hinner.
    destruct (wait_for_pod_running_run name timeout s_c) as (_ & Hns' & _).
    destruct (KubernetesManager_wait_for_pod_running name timeout s_c) as [s_w [[]|x]];
      cbn [fst snd] in *; subst inner; cbn; by rewrite Hns', Hns.
Qed.

Lemma create_pod_spec_name (name image command : string) (environment : option strdict)
    (resources : option (gmap string (gmap string string)))
    (node_selector : option strdict) :
  pm_metadata_name (create_pod_spec name image command environment resources node_selector)
  = name.
Proof. done. Qed.

Lemma start_pod_exists (name image command : string) (environment : option strdict)
    (resources : option (gmap string (gmap string string)))
    (node_selector : option strdict) (max_retries timeout : Z) s s1 (pod : P) :
  KubernetesManager_start_pod name image command environment resources node_selector
    max_retries timeout s = (s1, Ok pod) ->
  pod_exists (km_client s1) name (km_namespace s) /\
  (create_calls (km_calls s1) <= create_calls (km_calls s) + Z.to_nat max_retries)%nat.
Proof.
  intros Hstart.
  pose proof (start_pod_run name image command environment resources node_selector
                max_retries timeout s) as Hrun.
  cbn zeta in Hrun. rewrite Hstart in Hrun. cbn [fst snd] in Hrun.
  destruct (read_namespaced_pod name (km_namespace s) (km_client s))
    as [e' [pod'|err]] eqn:Hread; cbn [fst snd] in Hrun.
  - destruct Hrun as (_ & _ & -> & ->). split; [by eapply read_shows|].
    cbn [km_calls]. rewrite create_calls_app. cbn. lia.
  - destruct (not_found err); [|by destruct Hrun].
    match type of Hrun with context [create_loop ?b ?n ?l ?k ?s0] =>
      pose proof (create_loop_exists b n l k s0) as Hexists;
      destruct (create_loop_run b n l k s0)
        as (new & Hcalls & _ & _ & _ & _ & _ & Hcount & _);
      destruct (create_loop b n l k s0) as [s_c [[pod'|]|x]]
    end; cbn [fst snd km_namespace km_calls] in *; try by destruct Hrun.
    destruct Hrun as (-> & -> & Hrun).
    specialize (Hexists pod' eq_refl). rewrite create_pod_spec_name in Hexists.
    split; [by apply wait_for_pod_running_keeps|].
    destruct (wait_for_pod_running_run name timeout s_c)
      as (_ & _ & _ & new' & -> & Hnone & _).
    rewrite Hcalls, !create_calls_app, Hnone. cbn.
    rewrite py_range_length in Hcount. replace (max_retries + 1 - 1) with max_retries in Hcount by lia.
    lia.
Qed.

End StartTwiceCluster.

(** The claim of at most one creation call over two starts does not hold
    as it stands: when the API server answers the first creation call with
    429 (rate limit), the first [start_pod] retries, and the two starts
    together issue two creation calls, both starts succeeding. *)
Lemma start_twice_two_creation_calls :
  let s := sim_k8s_manager ∅ (mkSimApi ∅ [429] ["Running"] 0 1 []) in
  let run1 := KubernetesManager_start_pod "p" "img" "sleep infinity" None None None 5 1200 s in
  let run2 :=
    KubernetesManager_start_pod "p" "img" "sleep infinity" None None None 5 1200 run1.1 in
  (exists pod, run1.2 = Ok pod /\ run2.2 = Ok pod) /\
  ~ (create_calls (km_calls run2.1) <= 1)%nat.
Proof.
  intros s run1 run2. split.
  - eexists. split; vm_compute; reflexivity.
  - assert (Hcount : create_calls (km_calls run2.1) = 2%nat) by (vm_compute; reflexivity).
    rewrite Hcount. lia.
Qed.

(** C5, amended.  When a first start under a name has returned a handle, on
    an engine that keeps its targets, a second start under the same name
    issues no creation call, whatever its other arguments: it looks the
    target up by name, finds it and registers it again; the local backend
    starts it first when its status is not "running".  The first start
    issues at most one creation call on the local backend, and at most
    [max_retries] on the cluster backend. *)
Theorem second_start_reuses_target
    {E C : Type} `{DockerKeepsContainers E C} {E' P : Type} `{ApiKeepsPods E' P} :
  (forall (image command name : string) (environment : option strdict)
          (image2 command2 : string) (environment2 : option strdict)
          (s s1 : DockerManager E C) (c : C),
     DockerManager_start_container image command (Some name) environment s = (s1, Ok c) ->
     let run2 := DockerManager_start_container image2 command2 (Some name) environment2 s1 in
     (run_calls (dm_calls s1) <= run_calls (dm_calls s) + 1)%nat /\
     run_calls (dm_calls run2.1) = run_calls (dm_calls s1) /\
     forall c2, run2.2 = Ok c2 ->
       (exists l, (containers_list name (dm_client s1)).2 = Ok (c2 :: l)) /\
       dm_containers run2.1 = <[name := c2]> (dm_containers s1) /\
       dm_calls run2.1
       = dm_calls s1 ++ ContainersList name ::
           (if negb (String.eqb (container_status c2) "running")
            then [ContainerStart c2] else [])) /\
  (forall (name image command : string) (environment : option strdict)
          (resources : option (gmap string (gmap string string)))
          (node_selector : option strdict) (max_retries timeout : Z)
          (image2 command2 : string) (environment2 : option strdict)
          (resources2 : option (gmap string (gmap string string)))
          (node_selector2 : option strdict) (max_retries2 timeout2 : Z)
          (s s1 : KubernetesManager E' P) (pod : P),
     KubernetesManager_start_pod name image command environment resources node_selector
       max_retries timeout s = (s1, Ok pod) ->
     let run2 :=
       KubernetesManager_start_pod name image2 command2 environment2 resources2
         node_selector2 max_retries2 timeout2 s1 in
     (create_calls (km_calls s1) <= create_calls (km_calls s) + Z.to_nat max_retries)%nat /\
     create_calls (km_calls run2.1) = create_calls (km_calls s1) /\
     exists pod2,
       (read_namespaced_pod name (km_namespace s1) (km_client s1)).2 = Ok pod2 /\
       run2.2 = Ok pod2 /\
       km_pods run2.1 = <[name := pod2]> (km_pods s1) /\
       km_calls run2.1 = km_calls s1 ++ [ReadPod name (km_namespace s1)]).
Proof.
  split.
  - intros image command name environment image2 command2 environment2 s s1 c Hstart run2.
    destruct (start_container_exists _ _ _ _ _ _ _ Hstart) as [Hexists Hcount].
    split; [done|].
    pose proof (start_container_reuses image2 command2 name environment2 s1 Hexists) as Hrun.
    cbn zeta in Hrun. fold run2 in Hrun.
    destruct (containers_list name (dm_client s1)).2 as [[|c2 l]|err]; [done| |].
    + destruct (negb (String.eqb (container_status c2) "running")) eqn:Hstatus.
      * destruct Hrun as [Hcalls Hrun]. split.
        { rewrite Hcalls, run_calls_app. cbn. lia. }
        intros c3 Hc3. destruct (container_start c2 _).2 as [[]|err]; [|congruence].
        destruct Hrun as [Hres Hreg]. rewrite Hres in Hc3. injection Hc3 as <-.
        rewrite Hstatus. split; [by eexists|done].
      * destruct Hrun as (Hcalls & Hres & Hreg). split.
        { rewrite Hcalls, run_calls_app. cbn. lia. }
        intros c3 Hc3. rewrite Hres in Hc3. injection Hc3 as <-.
        rewrite Hstatus. split; [by eexists|done].
    + destruct Hrun as [Hres Hcalls]. split.
      { rewrite Hcalls, run_calls_app. cbn. lia. }
      intros c3 Hc3. congruence.
  - intros name image command environment resources node_selector max_retries timeout
      image2 command2 environment2 resources2 node_selector2 max_retries2 timeout2
      s s1 pod Hstart run2.
    destruct (start_pod_exists _ _ _ _ _ _ _ _ _ _ _ Hstart) as [Hexists Hcount].
    split; [done|].
    assert (Hns : km_namespace s1 = km_namespace s).
    { replace s1 with (KubernetesManager_start_pod name image command environment resources
                         node_selector max_retries timeout s).1 by by rewrite Hstart.
      apply start_pod_namespace. }
    rewrite <- Hns in Hexists.
    destruct (read_finds _ _ _ Hexists) as [pod2 Hread].
    pose proof (start_pod_run name image2 command2 environment2 resources2 node_selector2
                  max_retries2 timeout2 s1) as Hrun.
    cbn zeta in Hrun. fold run2 in Hrun. rewrite Hread in Hrun.
    destruct Hrun as (Hres & Hpods & Hcalls & _). cbn [km_calls] in Hcalls.
    split; [rewrite Hcalls, create_calls_app; cbn; lia|].
    by exists pod2.
Qed.

(** The simulated engines keep their targets. *)
Lemma sim_docker_keeps : DockerKeepsContainers sim_docker sim_container.
Proof.
  refine {| container_exists := fun e name => is_Some (sd_containers e !! name) |}.
  - intros image command name env e e' c. cbn. unfold sim_containers_run.
    destruct (sd_run_faults e); [|done].
    destruct (sd_containers e !! name) eqn:Hname; [done|].
    intros [= <- _]. cbn. rewrite lookup_insert_eq. by eexists.
  - intros name e e' c l. cbn. unfold sim_containers_list.
    destruct (sd_containers e !! name) eqn:Hname; [|done].
    intros [= <- _ _]. rewrite Hname. by eexists.
  - intros name e e' l [status Hname]. cbn. unfold sim_containers_list.
    rewrite Hname. by intros [= _ <-].
  - intros name c e [status Hname]. cbn. unfold sim_set_status.
    destruct (sd_containers e !! sc_name c) eqn:Hc; cbn; [|by eexists].
    destruct (decide (sc_name c = name)) as [->|Hne].
    + rewrite lookup_insert_eq. by eexists.
    + rewrite lookup_insert_ne by done. by eexists.
Qed.

Lemma sim_api_keeps : ApiKeepsPods sim_api pod_manifest.
Proof.
  refine {| pod_exists := fun e name namespace => is_Some (sa_pods e !! name) |}.
  - intros namespace body e e' p. cbn. unfold sim_create.
    destruct (sa_create_faults e); [|done].
    destruct (sa_pods e !! pm_metadata_name body) eqn:Hname; [done|].
    intros [= <- _]. cbn. rewrite lookup_insert_eq. by eexists.
  - intros name namespace e e' p. cbn. unfold sim_read.
    destruct (sa_pods e !! name) eqn:Hname; [|done].
    intros [= <- _]. rewrite Hname. by eexists.
  - intros name namespace e [p Hname]. cbn. unfold sim_read. rewrite Hname. by eexists.
  - done.
  - done.
Qed.

(** Two starts on the simulated engines: a container that is created by the
    first; a pod whose creation is answered 409 once. *)
Lemma second_start_reuses_target_witness :
  let s := sim_docker_manager (mkSimDocker ∅ [] [] 1 []) in
  let run1 := DockerManager_start_container "img" "/bin/bash" (Some "c1") None s in
  let run2 := DockerManager_start_container "img" "/bin/bash" (Some "c1") None run1.1 in
  let s' := sim_k8s_manager ∅ (mkSimApi ∅ [409] ["Pending"; "Running"] 0 1 []) in
  let run1' := KubernetesManager_start_pod "p" "img" "sleep infinity" None None None 5 1200 s' in
  let run2' :=
    KubernetesManager_start_pod "p" "img" "sleep infinity" None None None 5 1200 run1'.1 in
  run_calls (dm_calls run2.1) = run_calls (dm_calls run1.1) /\
  create_calls (km_calls run2'.1) = create_calls (km_calls run1'.1).
Proof.
  intros s run1 run2 s' run1' run2'.
  destruct (@second_start_reuses_target _ _ _ sim_docker_keeps _ _ _ sim_api_keeps)
    as [Hlocal Hcluster].
  split.
  - apply (Hlocal "img" "/bin/bash" "c1" None "img" "/bin/bash" None s run1.1
             (mkSimContainer "c1" "created")).
    vm_compute. reflexivity.
  - apply (Hcluster "p" "img" "sleep infinity" None None None 5 1200
             "img" "sleep infinity" None None None 5 1200 s' run1'.1
             (create_pod_spec "p" "img" "sleep infinity" None None None)).
    vm_compute. reflexivity.
Defined.

(** ** The names of the Identity Generator *)

(** [hashlib.sha256] on the test vectors of FIPS 180-4: the empty message,
    a message of one block and a message of two blocks. *)
Example sha256_empty :
  hexdigest (sha256 (encode ""))
  = "e3b0c44298fc1c149afbf4c8996fb92427ae41e4649b934ca495991b7852b855".
Proof. vm_compute. reflexivity. Qed.

Example sha256_abc :
  hexdigest (sha256 (encode "abc"))
  = "ba7816bf8f01cfea414140de5dae2223b00361a396177a9cb410ff61f20015ad".
Proof. vm_compute. reflexivity. Qed.

Example sha256_two_blocks :
  hexdigest (sha256 (encode "abcdbcdecdefdefgefghfghighijhijkijkljklmklmnlmnomnopnopq"))
  = "248d6a61d20638b8e5c026930c3e6039a33ce45964ff2167f6ecedd419db06c1".
Proof. vm_compute. reflexivity. Qed.

Lemma list_ascii_app (s1 s2 : string) :
  String.list_ascii_of_string (s1 +:+ s2)
  = String.list_ascii_of_string s1 ++ String.list_ascii_of_string s2.
Proof. induction s1 as [|c s1 IH]; [done|]. simpl. by f_equal. Qed.

Lemma string_length_list (s : string) :
  String.length s = length (String.list_ascii_of_string s).
Proof. induction s as [|c s IH]; [done|]. simpl. by f_equal. Qed.

Lemma str_take_list (n : nat) (s : string) :
  String.list_ascii_of_string (str_take n s) = take n (String.list_ascii_of_string s).
Proof.
  revert s. induction n as [|n IH]; intros [|c s]; simpl; try done. by f_equal.
Qed.

Lemma append_inj_r (s t1 t2 : string) : s +:+ t1 = s +:+ t2 -> t1 = t2.
Proof. induction s as [|c s IH]; simpl; [done|]. intros [= Heq]. by apply IH. Qed.

Lemma sanitized_image_chars (image_name : string) :
  String.list_ascii_of_string
    (str_replace ":"%char "-"%char (str_replace "/"%char "-"%char image_name))
  = sanitize_char <$> String.list_ascii_of_string image_name.
Proof.
  induction image_name as [|c s IH]; [done|]. simpl. rewrite IH. f_equal.
  unfold sanitize_char.
  destruct (Ascii.eqb c "/"%char) eqn:Hslash; cbn; [done|].
  by destruct (Ascii.eqb c ":"%char).
Qed.

Lemma hex_digit_lower (x : N) : is_lower_hex (hex_digit (x mod 16)) = true.
Proof.
  pose proof (N.mod_upper_bound x 16 ltac:(done)) as Hlt.
  set (y := (x mod 16)%N) in *.
  assert (Hnat : forall n, (n < 16)%nat -> is_lower_hex (hex_digit (N.of_nat n)) = true).
  { intros n Hn. do 16 (destruct n as [|n]; [vm_compute; reflexivity|]). lia. }
  replace y with (N.of_nat (N.to_nat y)) by lia. apply Hnat. lia.
Qed.

Lemma hex8_chars (w : N) :
  length (String.list_ascii_of_string (hex8 w)) = 8%nat /\
  Forall (fun c => is_lower_hex c = true) (String.list_ascii_of_string (hex8 w)).
Proof.
  unfold hex8. rewrite String.list_ascii_of_string_of_list_ascii.
  split; [by rewrite length_fmap, length_reverse, length_seq|].
  apply Forall_fmap, Forall_forall. intros i _. apply hex_digit_lower.
Qed.

Lemma hexdigest_chars (h : sha_state) :
  length (String.list_ascii_of_string (hexdigest h)) = 64%nat /\
  Forall (fun c => is_lower_hex c = true) (String.list_ascii_of_string (hexdigest h)).
Proof.
  unfold hexdigest. rewrite !list_ascii_app, !length_app, !Forall_app.
  pose proof (hex8_chars (sa h)) as [-> ?]. pose proof (hex8_chars (sb h)) as [-> ?].
  pose proof (hex8_chars (sc h)) as [-> ?]. pose proof (hex8_chars (sd h)) as [-> ?].
  pose proof (hex8_chars (se h)) as [-> ?]. pose proof (hex8_chars (sf h)) as [-> ?].
  pose proof (hex8_chars (sg h)) as [-> ?]. pose proof (hex8_chars (sh h)) as [-> ?].
  done.
Qed.

(** C6, where the code departs from it.  The name is a function of the
    image, the process id and the reading of the clock, and of nothing
    else.  Two calls of one process that read the same value of the clock
    (two calls in immediate succession on a clock that has not advanced
    between them) give the same name, against the docstring "Generate a
    unique container name".  Here two starts without a name, for one image,
    read the same value: the second is given the name of the first, finds
    its container and takes it over, and no second container is created. *)
Theorem same_clock_reading_same_name :
  let reading := "2024-05-01 12:00:00.123456" in
  let image := "repo/myimg:latest" in
  let name := "repo-myimg-latest-5dd5dcf53e" in
  let s := sim_docker_manager (mkSimDocker ∅ [] [] 4242 [reading; reading]) in
  let run1 := DockerManager_start_container image "/bin/bash" None None s in
  let run2 := DockerManager_start_container image "/bin/bash" None None run1.1 in
  get_container_name 4242 reading image = name /\
  run1.2 = Ok (mkSimContainer name "created") /\
  run2.2 = Ok (mkSimContainer name "running") /\
  dm_calls run2.1
  = [ContainersList name;
     ContainersRun image "/bin/bash" name {[ "PATH" := DEFAULT_DOCKER_PATH ]};
     ContainersList name] /\
  dm_containers run2.1 = {[ name := mkSimContainer name "running" ]}.
Proof. vm_compute. done. Qed.

(** The name is the image with every ['/'] and [':'] replaced by ['-'],
    then ['-'], then a suffix of exactly 10 lower-case hexadecimal digits:
    the first 10 of the SHA-256 digest of the clock reading followed by the
    process id.  Two calls for one image give different names exactly when
    these suffixes differ. *)
Theorem container_name_format (process_id : Z) (current_time image_name : string) :
  let suffix (pid : Z) (time : string) :=
    str_take 10 (hexdigest (sha256 (encode (time +:+ pretty pid)))) in
  get_container_name process_id current_time image_name
  = String.string_of_list_ascii (sanitize_char <$> String.list_ascii_of_string image_name)
    +:+ "-" +:+ suffix process_id current_time /\
  String.length (suffix process_id current_time) = 10%nat /\
  Forall (fun c => is_lower_hex c = true)
    (String.list_ascii_of_string (suffix process_id current_time)) /\
  forall process_id' current_time',
    get_container_name process_id current_time image_name
    = get_container_name process_id' current_time' image_name
    <-> suffix process_id current_time = suffix process_id' current_time'.
Proof.
  intros suffix.
  assert (Hname : forall pid time,
    get_container_name pid time image_name
    = String.string_of_list_ascii (sanitize_char <$> String.list_ascii_of_string image_name)
      +:+ "-" +:+ suffix pid time).
  { intros pid time. unfold get_container_name. cbn zeta. f_equal.
    by rewrite <- sanitized_image_chars, String.string_of_list_ascii_of_string. }
  destruct (hexdigest_chars (sha256 (encode (current_time +:+ pretty process_id))))
    as [Hlen Hhex].
  split; [apply Hname|]. split; [|split].
  - unfold suffix. rewrite string_length_list, str_take_list, length_take. lia.
  - unfold suffix. rewrite str_take_list. by apply Forall_take.
  - intros pid' time'. rewrite !Hname. split.
    + intros Heq. apply append_inj_r in Heq. by apply (append_inj_r "-") in Heq.
    + by intros ->.
Qed.

(** * Further properties of the code *)

(** ** The substitution that cleans the output *)

Lemma ansi_match_positive (s : string) (n : nat) : ansi_match s = Some n -> (0 < n)%nat.
Proof.
  destruct s as [|c s]; [done|]. unfold ansi_match.
  destruct (Ascii.eqb c ESC).
  - destruct s as [|c' s]; [done|]. destruct (Ascii.eqb c' "["%char); [|done].
    destruct (sgr_tail s); cbn; [|done]. intros [= <-]. lia.
  - destruct (Ascii.eqb c CR); [|done]. intros [= <-]. lia.
Qed.

Lemma ansi_match_carriage_return (s : string) : ansi_match (String CR s) = Some 1%nat.
Proof. done. Qed.

Lemma ansi_sub_from_chars (skip : nat) (s : string) :
  String.list_ascii_of_string (ansi_sub_from skip s) `sublist_of`
    String.list_ascii_of_string s /\
  CR ∉ String.list_ascii_of_string (ansi_sub_from skip s).
Proof.
  revert skip. induction s as [|c s IH]; intros skip.
  - cbn. split; [done|]. apply not_elem_of_nil.
  - cbn [ansi_sub_from]. destruct skip as [|k].
    + destruct (ansi_match (String c s)) as [[|k]|] eqn:Hmatch.
      * by apply ansi_match_positive in Hmatch; lia.
      * destruct (IH k) as [Hsub Hcr]. split; [|done]. simpl. by apply sublist_cons.
      * destruct (IH 0%nat) as [Hsub Hcr]. simpl. split; [by apply sublist_skip|].
        apply not_elem_of_cons. split; [|done].
        intros <-. by rewrite ansi_match_carriage_return in Hmatch.
    + destruct (IH k) as [Hsub Hcr]. split; [|done]. simpl. by apply sublist_cons.
Qed.

(** Nothing is added or reordered by the cleaning, and no carriage return is
    left in the output of a successful command. *)
Theorem strip_ansi_only_removes (output : string) :
  String.list_ascii_of_string (strip_ansi output) `sublist_of`
    String.list_ascii_of_string output /\
  CR ∉ String.list_ascii_of_string (strip_ansi output) /\
  (String.length (strip_ansi output) <= String.length output)%nat.
Proof.
  destruct (ansi_sub_from_chars 0 output) as [Hsub Hcr]. fold (strip_ansi output) in Hsub, Hcr.
  repeat split; try done. rewrite !string_length_list. by apply sublist_length.
Qed.

(** Text without escape characters and carriage returns is returned as it
    is. *)
Theorem strip_ansi_plain_text (output : string) :
  ESC ∉ String.list_ascii_of_string output ->
  CR ∉ String.list_ascii_of_string output ->
  strip_ansi output = output.
Proof.
  unfold strip_ansi. induction output as [|c s IH]; [done|]. simpl String.list_ascii_of_string.
  intros [Hesc Hesc']%not_elem_of_cons [Hcr Hcr']%not_elem_of_cons.
  cbn [ansi_sub_from]. unfold ansi_match.
  destruct (Ascii.eqb_spec c ESC) as [->|_]; [done|].
  destruct (Ascii.eqb_spec c CR) as [->|_]; [done|].
  by rewrite IH.
Qed.

Lemma strip_ansi_plain_text_witness : strip_ansi "total 12" = "total 12".
Proof.
  apply strip_ansi_plain_text; apply (bool_decide_unpack _); vm_compute; exact I.
Defined.

Lemma string_app_cons (c : ascii) (s t : string) :
  String c s +:+ t = String c (s +:+ t).
Proof. done. Qed.

Lemma sgr_tail_params (params rest : string) :
  Forall (fun c => is_sgr_param c = true) (String.list_ascii_of_string params) ->
  sgr_tail (params +:+ String "m" rest) = Some (S (String.length params)).
Proof.
  induction params as [|c params IH]; simpl; [done|].
  intros [Hc Hparams]%Forall_cons. rewrite Hc, IH by done. done.
Qed.

Lemma ansi_sub_from_skip (prefix rest : string) :
  ansi_sub_from (String.length prefix) (prefix +:+ rest) = ansi_sub_from 0 rest.
Proof. induction prefix as [|c prefix IH]; simpl; [by destruct rest|done]. Qed.

Lemma string_app_assoc_m (params rest : string) :
  params +:+ String "m" rest = (params +:+ "m") +:+ rest.
Proof. induction params as [|c params IH]; [done|]. rewrite !string_app_cons. by f_equal. Qed.

Lemma string_length_app_m (params : string) :
  String.length (params +:+ "m") = S (String.length params).
Proof. induction params as [|c params IH]; [done|]. rewrite string_app_cons. simpl. by f_equal. Qed.

Lemma ansi_colour_sequence_skipped (params rest : string) :
  Forall (fun c => is_sgr_param c = true) (String.list_ascii_of_string params) ->
  strip_ansi (String ESC (String "[" (params +:+ String "m" rest))) = strip_ansi rest.
Proof.
  intros Hparams. unfold strip_ansi. cbn [ansi_sub_from]. unfold ansi_match.
  rewrite Ascii.eqb_refl. cbn [Ascii.eqb]. rewrite sgr_tail_params by done.
  cbn [fmap option_fmap option_map ansi_sub_from].
  rewrite (string_app_assoc_m params rest), <- string_length_app_m. apply ansi_sub_from_skip.
Qed.

(** A colour sequence, ESC [ parameters m with parameters among the digits
    and [;], is removed whole, wherever it stands at the start of what is
    left to scan. *)
Theorem strip_ansi_colour_sequence (params rest : string) :
  Forall (fun c => is_sgr_param c = true) (String.list_ascii_of_string params) ->
  strip_ansi (String ESC (String "[" (params +:+ String "m" rest))) = strip_ansi rest.
Proof. apply ansi_colour_sequence_skipped. Qed.

Lemma strip_ansi_colour_sequence_witness :
  strip_ansi (String ESC (String "[" ("1;31" +:+ String "m" "red"))) = "red".
Proof.
  rewrite strip_ansi_colour_sequence; [reflexivity|].
  apply (bool_decide_unpack _). vm_compute. exact I.
Defined.

(** ** The wire contract on output whose escape sequences are colours *)

Lemma sgr_param_is_parameter_byte (c : ascii) :
  is_sgr_param c = true -> byte_between 48 63 c = true.
Proof.
  unfold is_sgr_param, byte_between. cbn zeta.
  intros [[Hlo Hhi]%andb_true_iff | Hsemi]%orb_true_iff.
  - apply andb_true_iff. split; [done|].
    apply N.leb_le in Hhi. apply N.leb_le. lia.
  - apply Ascii.eqb_eq in Hsemi as ->. done.
Qed.

Lemma spec_control_tail_params (params rest : string) :
  Forall (fun c => is_sgr_param c = true) (String.list_ascii_of_string params) ->
  spec_control_tail true (params +:+ String "m" rest) = Some (S (String.length params)).
Proof.
  induction params as [|c params IH]; simpl; [done|].
  intros [Hc Hparams]%Forall_cons.
  rewrite (sgr_param_is_parameter_byte c Hc), IH by done. done.
Qed.

Lemma spec_strip_from_skip (prefix rest : string) :
  spec_strip_from (String.length prefix) (prefix +:+ rest) = spec_strip_from 0 rest.
Proof. induction prefix as [|c prefix IH]; simpl; [by destruct rest|done]. Qed.

Lemma spec_colour_sequence_stripped (params rest : string) :
  Forall (fun c => is_sgr_param c = true) (String.list_ascii_of_string params) ->
  spec_cleaned_output (String ESC (String "[" (params +:+ String "m" rest)))
  = spec_cleaned_output rest.
Proof.
  intros Hparams. unfold spec_cleaned_output. cbn [spec_strip_from].
  unfold spec_stripped_prefix.
  change (Ascii.eqb ESC CR) with false. rewrite Ascii.eqb_refl. cbn [Ascii.eqb].
  rewrite spec_control_tail_params by done.
  cbn [fmap option_fmap option_map spec_strip_from].
  rewrite (string_app_assoc_m params rest), <- string_length_app_m. apply spec_strip_from_skip.
Qed.

(** On such output the substitution of the code strips what the
    specification strips. *)
Lemma colour_text_cleaned (output : string) :
  colour_text output -> strip_ansi output = spec_cleaned_output output.
Proof.
  induction 1 as [|c s Hc _ IH|params s Hparams _ IH].
  - done.
  - unfold strip_ansi, spec_cleaned_output in *.
    cbn [ansi_sub_from spec_strip_from]. unfold ansi_match, spec_stripped_prefix.
    destruct (Ascii.eqb_spec c ESC) as [->|_]; [done|].
    destruct (Ascii.eqb c CR); [done|]. by rewrite IH.
  - by rewrite ansi_colour_sequence_skipped, spec_colour_sequence_stripped.
Qed.

Lemma drained_output_stream (rounds : list (string * string)) :
  drained_output rounds = spec_stream_output rounds.
Proof.
  unfold drained_output, spec_stream_output.
  induction rounds as [|[out err] rounds IH]; [done|].
  cbn [fmap list_fmap concat foldr fst snd]. rewrite <- IH. clear IH.
  set (rest := concat _).
  destruct (String.eqb_spec out "") as [->|_]; destruct (String.eqb_spec err "") as [->|_];
    done.
Qed.

(** When the escape sequences in the output of a command that exits with
    code 0 are colour sequences, a command execution on either backend
    follows the wire contract: it returns a pair and never raises; exit code
    0 gives the cleaned output with ["0"]; exit code 124, or the bounded wait
    timing out, gives the timeout message with ["-1"]; any other exit code N
    gives the raw output with ["Error: Exit code N"]; any other exception of
    the invocation gives ["Error: <repr>"] with ["-1"]. *)
Theorem wire_contract_on_colour_text
    {E C P E' : Type} `{DockerClient E C} `{CoreV1Api E' P} :
  (forall (container : C) (command : string) (timeout : Z) (workdir : option string)
          (s : DockerManager E C),
     let resolved :=
       (container_exec_run container ["/bin/sh"; "-c"; command] workdir
          {[ "PATH" := DEFAULT_DOCKER_PATH ]} (timeout + 5) (dm_client s)).2 in
     (forall output, resolved = Ok (output, Some 0) -> colour_text output) ->
     exists result,
       (DockerManager_execute_command container command timeout workdir s).2 = Ok result /\
       wire_contract timeout resolved result) /\
  (forall (pod_name command : string) (timeout : Z) (s : KubernetesManager E' P),
     let resolved :=
       (pod_exec pod_name (km_namespace s) ["/bin/sh"; "-c"; command] (timeout + 5)
          (km_client s)).2 in
     (forall rounds, resolved = Ok (rounds, Some 0) ->
        colour_text (spec_stream_output rounds)) ->
     exists result,
       (KubernetesManager_execute_command pod_name command timeout s).2 = Ok result /\
       wire_contract timeout
         (match resolved with
          | Ok r => Ok (spec_stream_output r.1, r.2)
          | Raise e => Raise e
          end)
         result).
Proof.
  split.
  - intros container command timeout workdir s resolved Hcolour.
    destruct (docker_execute_command_run container command timeout workdir s)
      as (result & Hrun & Hresult & _).
    cbn zeta in Hresult. fold resolved in Hresult.
    exists result. split; [by rewrite Hrun|].
    unfold wire_contract, timed_out_result in *.
    destruct resolved as [[output [n|]]|e]; try done.
    destruct (decide (n = 0)) as [->|Hn]; [|done].
    rewrite Hresult. by rewrite (colour_text_cleaned output) by by apply Hcolour.
  - intros pod_name command timeout s resolved Hcolour.
    destruct (km_execute_command_run pod_name command timeout s)
      as (result & Hrun & Hresult & _).
    cbn zeta in Hresult. fold resolved in Hresult.
    exists result. split; [done|].
    unfold wire_contract, timed_out_result in *.
    destruct resolved as [[rounds [n|]]|e]; cbn [fst snd]; try done.
    rewrite <- drained_output_stream.
    destruct (decide (n = 0)) as [->|Hn]; [|done].
    rewrite Hresult. rewrite (colour_text_cleaned (drained_output rounds)); [done|].
    rewrite drained_output_stream. by apply Hcolour.
Qed.

(** A listing in red, with a carriage return before the line feed. *)
Lemma wire_contract_on_colour_text_witness :
  let output :=
    String ESC (String "[" ("1;31" +:+ String "m"
      ("failed" +:+ String ESC (String "[" ("0" +:+ String "m" (String CR "")))))) in
  let s := sim_docker_manager
             (mkSimDocker {[ "c" := "running" ]} [] [Ok (output, Some 0)] 1 []) in
  exists result,
    (DockerManager_execute_command (mkSimContainer "c" "running") "ls" 300 None s).2
    = Ok result /\
    wire_contract 300 (Ok (output, Some 0)) result.
Proof.
  intros output s.
  destruct (@wire_contract_on_colour_text sim_docker sim_container pod_manifest sim_api _ _)
    as [Hlocal _].
  apply (Hlocal (mkSimContainer "c" "running") "ls" 300 None s).
  intros output' Houtput. vm_compute in Houtput. injection Houtput as <-.
  apply (colour_text_sequence "1;31"
           ("failed" +:+ String ESC (String "[" ("0" +:+ String "m" (String CR ""))))).
  { apply (bool_decide_unpack _). vm_compute. exact I. }
  do 6 (apply colour_text_char; [discriminate|]).
  apply (colour_text_sequence "0" (String CR "")).
  { apply (bool_decide_unpack _). vm_compute. exact I. }
  apply colour_text_char; [discriminate|]. apply colour_text_end.
Defined.

(** ** The readiness wait, exit by exit *)

Section WaitOutcomes.
Context {E P : Type} `{CoreV1Api E P}.
Implicit Types (s : KubernetesManager E P).

Lemma wait_loop_outcomes (pod_name : string) (timeout : Z) (start_time : Q)
    (events : list string) (ending : option lib_exn) s :
  let run := wait_loop pod_name timeout start_time events ending s in
  let waiting phase := phase ∉ ["Running"; "Failed"; "Succeeded"; "Unknown"] in
  match run.2 with
  | Ok _ =>
      (km_calls run.1 = km_calls s ++ [WatchStop] /\ "Running" ∈ events) \/
      (km_calls run.1 = km_calls s /\ ending = None /\ Forall waiting events)
  | Raise (RuntimeError msg) =>
      km_calls run.1 = km_calls s ++ [WatchStop] /\
      (msg = "Pod '" +:+ pod_name +:+ "' timed out after " +:+ pretty timeout +:+ " seconds"
       \/ exists phase,
            phase ∈ events /\ phase ∈ ["Failed"; "Succeeded"; "Unknown"] /\
            msg = "Pod '" +:+ pod_name +:+ "' entered terminal phase '" +:+ phase +:+ "'")
  | Raise (LibExn e) =>
      km_calls run.1 = km_calls s /\ ending = Some e /\ Forall waiting events
  end.
Proof.
  revert s. induction events as [|phase events IH]; intros s run waiting; subst run.
  - cbn. destruct ending; cbn; [done|]. right. done.
  - rewrite wait_loop_cons. cbn zeta.
    destruct (time_time (km_client s)) as [e now]. cbn [fst snd].
    set (s1 := mkKubernetesManager _ _ _ _ _ _).
    destruct (negb (Qle_bool (now - start_time) (inject_Z timeout))); [cbn; auto|].
    destruct (String.eqb_spec phase "Running") as [->|Hrunning].
    { cbn. left. split; [done|]. by left. }
    destruct (bool_decide (phase ∈ ["Failed"; "Succeeded"; "Unknown"])) eqn:Hterminal.
    { apply bool_decide_eq_true in Hterminal. cbn. split; [done|]. right.
      exists phase. split; [by left|done]. }
    apply bool_decide_eq_false in Hterminal.
    assert (Hphase : waiting phase).
    { unfold waiting. intros [->|Hin]%elem_of_cons; done. }
    specialize (IH s1). cbn zeta in IH. change (km_calls s1) with (km_calls s) in IH.
    destruct (wait_loop pod_name timeout start_time events ending s1).2 as [[]|[e'|msg]].
    + destruct IH as [[Hcalls Hin]|(Hcalls & Hending & Hall)].
      * left. split; [done|]. by right.
      * right. repeat split; try done. by constructor.
    + destruct IH as (Hcalls & Hending & Hall). repeat split; try done. by constructor.
    + destruct IH as [Hcalls [Hmsg|(phase' & Hin & Hterm & Hmsg)]].
      * split; [done|]. by left.
      * split; [done|]. right. exists phase'. split; [by right|done].
Qed.

(** The exits of [_wait_for_pod_running], with the calls each one makes. *)
Lemma wait_for_pod_running_exits (pod_name : string) (timeout : Z) s :
  let stream :=
    (watch_stream (km_namespace s) ("metadata.name=" +:+ pod_name) timeout
       (time_time (km_client s)).1).2 in
  let events := stream.1 in
  let ending := stream.2 in
  let run := KubernetesManager_wait_for_pod_running pod_name timeout s in
  let waiting phase := phase ∉ ["Running"; "Failed"; "Succeeded"; "Unknown"] in
  exists stops,
    km_calls run.1
    = km_calls s ++ WatchStream (km_namespace s) ("metadata.name=" +:+ pod_name) timeout
        :: stops /\
    match run.2 with
    | Ok _ =>
        (stops = [WatchStop] /\ "Running" ∈ events) \/
        (stops = [] /\ ending = None /\ Forall waiting events)
    | Raise (RuntimeError msg) =>
        stops = [WatchStop] /\
        (msg = "Pod '" +:+ pod_name +:+ "' timed out after " +:+ pretty timeout +:+ " seconds"
         \/ exists phase,
              phase ∈ events /\ phase ∈ ["Failed"; "Succeeded"; "Unknown"] /\
              msg = "Pod '" +:+ pod_name +:+ "' entered terminal phase '" +:+ phase +:+ "'")
    | Raise (LibExn e) => stops = [] /\ ending = Some e /\ Forall waiting events
    end.
Proof.
  intros stream events ending run waiting. subst run.
  unfold KubernetesManager_wait_for_pod_running.
  match goal with |- context [km_with_proxy ?b s] =>
    destruct (km_with_proxy_run b s) as (-> & _ & -> & _);
    remember (b (set_environ (scope_entry_environ (km_disable_proxy s) (km_environ s)) s))
      as inner eqn:Hinner
  end.
  unfold km_call in Hinner. unfold bind, km_world, get, modify in Hinner.
  cbn [km_log km_client km_namespace km_disable_proxy km_pods km_environ km_calls
       set_environ KubernetesManager_HasEnviron] in Hinner.
  subst events ending stream.
  destruct (time_time (km_client s)) as [e1 start_time].
  cbn [fst snd km_log km_client km_namespace km_disable_proxy km_pods km_environ km_calls]
    in *.
  destruct (watch_stream _ _ _ e1) as [e2 [events ending]]. cbn [fst snd] in *.
  match type of Hinner with _ = wait_loop _ _ _ _ _ ?s2 =>
    pose proof (wait_loop_outcomes pod_name timeout start_time events ending s2) as Hloop
  end.
  cbn zeta in Hloop. rewrite <- Hinner in Hloop. cbn [km_calls] in Hloop.
  destruct inner.2 as [[]|[e|msg]].
  - destruct Hloop as [[Hcalls Hin]|(Hcalls & Hending & Hall)].
    + exists [WatchStop]. split; [by rewrite Hcalls, <- app_assoc|]. by left.
    + exists []. split; [done|]. by right.
  - destruct Hloop as (Hcalls & Hending & Hall). exists []. done.
  - destruct Hloop as [Hcalls Hmsg]. exists [WatchStop].
    split; [by rewrite Hcalls, <- app_assoc|]. done.
Qed.


(** On the creation path of [start_pod], once the loop has created the pod,
    the watch on the name of the pod is opened next, and the registry
    follows the exit of the wait: the pod is registered when the wait
    returns (a Running event was handled and the watch stopped, or the
    stream ended with neither a Running nor a terminal event in it), and the
    registry is as before when the wait raises.  When the loop does not
    create the pod, no watch is opened and the registry is as before. *)
Theorem start_pod_registers_after_wait
    (name image command : string) (environment : option strdict)
    (resources : option (gmap string (gmap string string)))
    (node_selector : option strdict) (max_retries timeout : Z) s (e : lib_exn) :
  let body := create_pod_spec name image command environment resources node_selector in
  let answered := read_namespaced_pod name (km_namespace s) (km_client s) in
  let s_r :=
    mkKubernetesManager (km_namespace s) (km_disable_proxy s) (km_pods s) answered.1
      (scope_entry_environ (km_disable_proxy s) (km_environ s))
      (km_calls s ++ [ReadPod name (km_namespace s)]) in
  let created := create_loop body max_retries (py_range 1 (max_retries + 1)) 5 s_r in
  let stream :=
    (watch_stream (km_namespace s) ("metadata.name=" +:+ name) timeout
       (time_time (km_client created.1)).1).2 in
  let run :=
    KubernetesManager_start_pod name image command environment resources node_selector
      max_retries timeout s in
  let waiting phase := phase ∉ ["Running"; "Failed"; "Succeeded"; "Unknown"] in
  answered.2 = Raise e -> not_found e = true ->
  match created.2 with
  | Ok (Some pod) =>
      exists stops,
        km_calls run.1
        = km_calls created.1
            ++ WatchStream (km_namespace s) ("metadata.name=" +:+ name) timeout :: stops /\
        match run.2 with
        | Ok registered =>
            registered = pod /\ km_pods run.1 = <[name := pod]> (km_pods s) /\
            ((stops = [WatchStop] /\ "Running" ∈ stream.1) \/
             (stops = [] /\ stream.2 = None /\ Forall waiting stream.1))
        | Raise (RuntimeError _) => km_pods run.1 = km_pods s /\ stops = [WatchStop]
        | Raise (LibExn e') =>
            km_pods run.1 = km_pods s /\ stops = [] /\ stream.2 = Some e'
        end
  | _ =>
      km_calls run.1 = km_calls created.1 /\ km_pods run.1 = km_pods s /\
      exists x, run.2 = Raise x
  end.
Proof.
  intros body answered s_r created stream run waiting Hanswer Hfound.
  pose proof (start_pod_run name image command environment resources node_selector
                max_retries timeout s) as Hrun.
  cbn zeta in Hrun. fold answered in Hrun. rewrite Hanswer, Hfound in Hrun.
  fold body s_r created run in Hrun.
  destruct (create_loop_run body max_retries (py_range 1 (max_retries + 1)) 5 s_r)
    as (_ & _ & _ & _ & Hns & _).
  fold created in Hns. cbn [km_namespace s_r] in Hns.
  subst stream. destruct created.2 as [[pod|]|x].
  - destruct Hrun as (Hcalls & _ & Hrun).
    destruct (wait_for_pod_running_exits name timeout created.1) as (stops & Hstops & Hexit).
    rewrite Hns in Hstops, Hexit.
    exists stops. split; [by rewrite Hcalls|].
    destruct (KubernetesManager_wait_for_pod_running name timeout created.1).2
      as [[]|[e'|msg]].
    + destruct Hrun as [-> Hpods]. done.
    + destruct Hrun as [-> Hpods]. by destruct Hexit as (? & ? & _).
    + destruct Hrun as [-> Hpods]. by destruct Hexit as (? & _).
  - destruct Hrun as (Hres & Hpods & Hcalls). repeat split; try done. by eexists.
  - destruct Hrun as (Hres & Hpods & Hcalls). repeat split; try done. by eexists.
Qed.

End WaitOutcomes.

(** The creation is answered 429 once; the watch reports Pending, then
    Running. *)
Lemma start_pod_registers_after_wait_witness :
  let s := sim_k8s_manager ∅ (mkSimApi ∅ [429] ["Pending"; "Running"] 0 1 []) in
  let run := KubernetesManager_start_pod "p" "img" "sleep infinity" None None None 5 1200 s in
  let body := create_pod_spec "p" "img" "sleep infinity" None None None in
  run.2 = Ok body /\
  km_pods run.1 = {[ "p" := body ]} /\
  km_calls run.1
  = [ReadPod "p" "default"; CreatePod "default" body; Sleep 5; CreatePod "default" body;
     WatchStream "default" "metadata.name=p" 1200; WatchStop].
Proof.
  intros s run body.
  pose proof (start_pod_registers_after_wait "p" "img" "sleep infinity" None None None 5 1200 s
                (ApiException 404 "ApiException(404 Not Found)") eq_refl eq_refl) as Hthm.
  cbn zeta in Hthm. fold s run body in Hthm.
  lazymatch type of Hthm with
  | match ?created with _ => _ end =>
      assert (Hcreated : created = Ok (Some body)) by (vm_compute; reflexivity);
      rewrite Hcreated in Hthm
  end.
  destruct Hthm as (stops & Hcalls & Hexit).
  assert (Hrun : run.2 = Ok body) by (vm_compute; reflexivity).
  rewrite Hrun in Hexit.
  destruct Hexit as (_ & Hpods & [[-> _]|(_ & _ & Hall)]).
  - split; [exact Hrun|]. split; [exact Hpods|]. rewrite Hcalls. vm_compute. reflexivity.
  - apply Forall_cons in Hall as [_ Hall]. apply Forall_cons in Hall as [Hnot _].
    destruct Hnot. by left.
Defined.

(** ** The proxy scope, seen from inside and from outside *)

(** While the body of a scope with [disable_proxy=True] runs, none of the
    eight proxy variables is set and every other variable is as before; with
    [disable_proxy=False] the body runs in the environment as it is. *)
Theorem proxy_scope_body_environment (flag : bool) (environ : strdict) (var : string) :
  scope_entry_environ flag environ !! var
  = if flag && bool_decide (var ∈ proxy_vars) then None else environ !! var.
Proof. apply scope_entry_lookup. Qed.

(** A proxy variable that was not set before the scope and that the body
    sets is not removed on exit: the scope restores what it captured and
    deletes nothing. *)
Theorem proxy_scope_keeps_created {X A} (environ : strdict) (body : M X strdict A)
    (var : string) :
  var ∈ proxy_vars -> environ !! var = None ->
  (with_ProxyManager true body environ).1 !! var
  = (body (scope_entry_environ true environ)).1 !! var.
Proof.
  intros Hvar Hnone. rewrite with_ProxyManager_environ. cbn [andb].
  rewrite bool_decide_eq_true_2 by done. by rewrite Hnone.
Qed.

Lemma proxy_scope_keeps_created_witness :
  let body : M exn strdict unit := modify (<["http_proxy" := "http://set-inside"]>) in
  (with_ProxyManager true body ∅).1 !! "http_proxy" = Some "http://set-inside".
Proof.
  intros body.
  rewrite (proxy_scope_keeps_created ∅ body "http_proxy").
  - vm_compute. reflexivity.
  - apply (bool_decide_unpack _). vm_compute. exact I.
  - reflexivity.
Defined.

Lemma proxy_scope_restores_present_witness :
  let environ : strdict := {[ "HTTPS_PROXY" := "http://proxy:3128" ]} in
  let body : M exn strdict unit := modify (<["HTTPS_PROXY" := "http://other"]>) in
  (with_ProxyManager true body environ).1 !! "HTTPS_PROXY" = Some "http://proxy:3128".
Proof.
  intros environ body.
  apply (proxy_scope_restores_present environ body "HTTPS_PROXY" "http://proxy:3128").
  - apply (bool_decide_unpack _). vm_compute. exact I.
  - vm_compute. reflexivity.
Defined.

Section ClusterEnvironment.
Context {E P : Type} `{CoreV1Api E P}.
Implicit Types (s : KubernetesManager E P).

(** A scope around a body that hands the environment back as it found it
    leaves the environment of the process as it was. *)
Lemma km_with_proxy_environ {X A} (body : M X (KubernetesManager E P) A) s :
  (forall s0, km_environ (body s0).1 = km_environ s0) ->
  km_environ (km_with_proxy body s).1 = km_environ s.
Proof.
  intros Hbody. unfold km_with_proxy, with_ProxyManager.
  cbn [get_environ set_environ KubernetesManager_HasEnviron].
  match goal with |- context [body ?s0] =>
    pose proof (Hbody s0) as Henv; destruct (body s0) as [s' r]
  end.
  cbn [fst snd km_environ] in *. rewrite Henv.
  pose proof (proxy_scope_identity (X := X) (A := unit) (km_disable_proxy s) (km_environ s)
                (ret tt) eq_refl) as Hid.
  unfold with_ProxyManager in Hid. cbn in Hid. exact Hid.
Qed.

Lemma create_loop_environ body (max_retries : Z) (attempts : list Z) (backoff : Z) s :
  km_environ (create_loop body max_retries attempts backoff s).1 = km_environ s.
Proof. by destruct (create_loop_run body max_retries attempts backoff s) as (? & ? & ? & ? & ?). Qed.

Lemma wait_for_pod_running_environ (pod_name : string) (timeout : Z) s :
  km_environ (KubernetesManager_wait_for_pod_running pod_name timeout s).1 = km_environ s.
Proof.
  unfold KubernetesManager_wait_for_pod_running. apply km_with_proxy_environ.
  intros s0. unfold km_call. unfold bind, km_world, get, modify.
  cbn [km_log km_client km_namespace km_disable_proxy km_pods km_environ km_calls].
  destruct (time_time (km_client s0)) as [e1 start_time].
  cbn [fst snd km_log km_client km_namespace km_disable_proxy km_pods km_environ km_calls].
  destruct (watch_stream _ _ _ e1) as [e2 [events ending]]. cbn [fst snd].
  match goal with |- context [wait_loop ?a ?b ?c ?d ?e ?s2] =>
    by destruct (wait_loop_run a b c d e s2) as (_ & -> & _)
  end.
Qed.

(** Every method of the cluster adapter runs inside a proxy scope and hands
    the environment of the process back as it was, whether it returns or
    raises, and also [start_pod], which nests the scope of the readiness
    wait in its own. *)
Theorem cluster_methods_restore_environment s :
  (forall pod_name grace_period,
     km_environ (KubernetesManager_delete_pod pod_name grace_period s).1 = km_environ s) /\
  (forall pod_name command timeout,
     km_environ (KubernetesManager_execute_command pod_name command timeout s).1
     = km_environ s) /\
  (forall pod_name timeout,
     km_environ (KubernetesManager_wait_for_pod_running pod_name timeout s).1
     = km_environ s) /\
  (forall name image command environment resources node_selector max_retries timeout,
     km_environ (KubernetesManager_start_pod name image command environment resources
                   node_selector max_retries timeout s).1 = km_environ s).
Proof.
  split; [|split; [|split]].
  - intros pod_name grace_period. unfold KubernetesManager_delete_pod.
    apply km_with_proxy_environ. intros s0.
    unfold km_call. unfold bind, km_world, get, modify.
    cbn [km_log km_client km_namespace km_disable_proxy km_pods km_environ km_calls].
    destruct (delete_namespaced_pod _ _ _ _) as [e' [[]|err]]; cbn [fst snd].
    + cbn [km_pods]. by destruct (km_pods s0 !! pod_name).
    + destruct err as [status d|d|d]; try done. by case_decide.
  - intros pod_name command timeout. unfold KubernetesManager_execute_command.
    apply km_with_proxy_environ. intros s0.
    unfold try_except, km_call. unfold bind, km_world, get, modify.
    cbn [km_log km_client km_namespace km_disable_proxy km_pods km_environ km_calls].
    destruct (pod_exec _ _ _ _ _) as [e' [[rounds exit_code]|err]]; cbn [fst snd].
    + cbn. by repeat case_decide.
    + by destruct err.
  - intros pod_name timeout. apply wait_for_pod_running_environ.
  - intros name image command environment resources node_selector max_retries timeout.
    unfold KubernetesManager_start_pod. apply km_with_proxy_environ. intros s0.
    unfold km_call. unfold bind at 1 2 3, get at 1, modify at 1, km_world at 1.
    cbn [km_log km_client km_namespace km_disable_proxy km_pods km_environ km_calls].
    destruct (read_namespaced_pod _ _ _) as [e' [pod|err]]; cbn [fst snd]; [done|].
    set (s_r := mkKubernetesManager _ _ _ _ _ _).
    assert (Hskip :
      forall (k : M exn (KubernetesManager E P) P),
        bind (match err with
              | ApiException status _ =>
                  if decide (status <> 404) then raise (LibExn err) else ret tt
              | _ => raise (LibExn err)
              end) (fun _ => k) s_r
        = if not_found err then k s_r else (s_r, Raise (LibExn err))).
    { intros k. unfold bind, not_found. destruct err as [status d|d|d]; try done.
      case_decide; case_bool_decide; done. }
    rewrite Hskip. clear Hskip. destruct (not_found err); [|done].
    unfold bind at 1.
    match goal with |- context [create_loop ?b ?n ?l ?k s_r] =>
      pose proof (create_loop_environ b n l k s_r) as Hloop;
      destruct (create_loop b n l k s_r) as [s_c [[pod|]|x]]
    end; cbn [fst snd] in *; try done.
    unfold bind at 1.
    pose proof (wait_for_pod_running_environ name timeout s_c) as Hwait.
    destruct (KubernetesManager_wait_for_pod_running name timeout s_c) as [s_w [[]|x]];
      cbn [fst snd] in *; cbn; by rewrite Hwait, Hloop.
Qed.

End ClusterEnvironment.

(** ** Command execution: the call issued, and a missing exit code *)

(** The local [execute_command] issues one [exec_run] call, of
    [/bin/sh -c command] with the baseline PATH, awaited for [timeout + 5]
    seconds; it changes neither the registry nor the output, never raises,
    and renders a missing exit code as ["Error: Exit code None"] with the raw
    output. *)
Theorem docker_execute_command_call {E C : Type} `{DockerClient E C}
    (container : C) (command : string) (timeout : Z) (workdir : option string)
    (s : DockerManager E C) :
  let call :=
    ContainerExecRun container ["/bin/sh"; "-c"; command] workdir
      {[ "PATH" := DEFAULT_DOCKER_PATH ]} (timeout + 5) in
  let resolved :=
    container_exec_run container ["/bin/sh"; "-c"; command] workdir
      {[ "PATH" := DEFAULT_DOCKER_PATH ]} (timeout + 5) (dm_client s) in
  let run := DockerManager_execute_command container command timeout workdir s in
  run.1 = mkDockerManager resolved.1 (dm_containers s) (dm_calls s ++ [call]) (dm_stdout s) /\
  (exists result, run.2 = Ok result) /\
  match resolved.2 with
  | Ok (output, None) => run.2 = Ok (output, "Error: Exit code None")
  | _ => True
  end.
Proof.
  intros call resolved run.
  destruct (docker_execute_command_run container command timeout workdir s)
    as (result & Hrun & _ & Hnone).
  fold resolved in Hrun, Hnone. fold run in Hrun. rewrite Hrun. cbn [fst snd].
  split; [done|]. split; [by eexists|].
  destruct resolved.2 as [[output [n|]]|e]; try done. by rewrite (Hnone output).
Qed.

(** The cluster [execute_command] issues one exec call, of
    [/bin/sh -c command] in the namespace of the manager, awaited for
    [timeout + 5] seconds; it leaves the registry alone, and resolves a
    stream without return code to ["Exit code not found"] with ["-1"],
    whatever was read from the stream. *)
Theorem cluster_execute_command_call {E P : Type} `{CoreV1Api E P}
    (pod_name command : string) (timeout : Z) (s : KubernetesManager E P) :
  let resolved :=
    pod_exec pod_name (km_namespace s) ["/bin/sh"; "-c"; command] (timeout + 5)
      (km_client s) in
  let run := KubernetesManager_execute_command pod_name command timeout s in
  km_calls run.1
  = km_calls s ++ [PodExec pod_name (km_namespace s) ["/bin/sh"; "-c"; command] (timeout + 5)] /\
  km_client run.1 = resolved.1 /\
  km_pods run.1 = km_pods s /\
  match resolved.2 with
  | Ok (_, None) => run.2 = Ok ("Exit code not found", "-1")
  | _ => True
  end.
Proof.
  intros resolved run.
  destruct (km_execute_command_run pod_name command timeout s) as (result & Hrun & _ & Hnone).
  fold resolved in Hnone. fold run in Hrun.
  assert (Hstate :
    km_calls run.1
    = km_calls s ++ [PodExec pod_name (km_namespace s) ["/bin/sh"; "-c"; command] (timeout + 5)] /\
    km_client run.1 = resolved.1 /\ km_pods run.1 = km_pods s).
  { subst run resolved. unfold KubernetesManager_execute_command.
    match goal with |- context [km_with_proxy ?b s] =>
      destruct (km_with_proxy_run b s) as (_ & -> & -> & -> & _)
    end.
    unfold try_except, km_call. unfold bind, km_world, get, modify.
    cbn [km_log km_client km_namespace km_disable_proxy km_pods km_environ km_calls
         set_environ KubernetesManager_HasEnviron].
    destruct (pod_exec _ _ _ _ _) as [e' [[rounds exit_code]|err]]; cbn [fst snd].
    - cbn. by repeat case_decide.
    - by destruct err. }
  destruct Hstate as (? & ? & ?). repeat split; try done.
  destruct resolved.2 as [[rounds [n|]]|e]; try done.
  rewrite Hrun. f_equal. by apply (Hnone rounds).
Qed.

(** ** Pod start: the paths around the creation loop *)

Section StartPodPaths.
Context {E P : Type} `{CoreV1Api E P}.
Implicit Types (s : KubernetesManager E P).

(** When the lookup finds the pod, [start_pod] registers and returns it
    after that single call: nothing is created and no readiness wait is run,
    whatever the phase of the pod.  When the lookup fails with anything but
    "not found", that exception goes on to the caller, after that single
    call and with the registry as before. *)
Theorem start_pod_lookup_decides
    (name image command : string) (environment : option strdict)
    (resources : option (gmap string (gmap string string)))
    (node_selector : option strdict) (max_retries timeout : Z) s :
  let answered := read_namespaced_pod name (km_namespace s) (km_client s) in
  let run :=
    KubernetesManager_start_pod name image command environment resources node_selector
      max_retries timeout s in
  match answered.2 with
  | Ok pod =>
      run.2 = Ok pod /\ km_pods run.1 = <[name := pod]> (km_pods s) /\
      km_calls run.1 = km_calls s ++ [ReadPod name (km_namespace s)]
  | Raise e =>
      if not_found e then True
      else run.2 = Raise (LibExn e) /\ km_pods run.1 = km_pods s /\
           km_calls run.1 = km_calls s ++ [ReadPod name (km_namespace s)]
  end.
Proof.
  intros answered run.
  pose proof (start_pod_run name image command environment resources node_selector
                max_retries timeout s) as Hrun.
  cbn zeta in Hrun. fold answered run in Hrun.
  destruct answered.2 as [pod|e].
  - by destruct Hrun as (? & ? & ? & _).
  - destruct (not_found e); [done|]. by destruct Hrun as (? & ? & ?).
Qed.

(** With a retry budget of zero or less the pod is never created: after a
    lookup answered "not found" the loop body does not run and [start_pod]
    raises the "Exceeded retry limit" error, with the registry as before. *)
Theorem start_pod_without_budget
    (name image command : string) (environment : option strdict)
    (resources : option (gmap string (gmap string string)))
    (node_selector : option strdict) (max_retries timeout : Z) s (e : lib_exn) :
  max_retries <= 0 ->
  (read_namespaced_pod name (km_namespace s) (km_client s)).2 = Raise e ->
  not_found e = true ->
  let run :=
    KubernetesManager_start_pod name image command environment resources node_selector
      max_retries timeout s in
  run.2 = Raise (RuntimeError ("Exceeded retry limit (" +:+ pretty max_retries
                               +:+ ") creating pod '" +:+ name +:+ "'")) /\
  km_pods run.1 = km_pods s /\
  km_calls run.1 = km_calls s ++ [ReadPod name (km_namespace s)].
Proof.
  intros Hbudget Hread Hfound run.
  pose proof (start_pod_run name image command environment resources node_selector
                max_retries timeout s) as Hrun.
  cbn zeta in Hrun. fold run in Hrun. rewrite Hread, Hfound in Hrun.
  assert (Hrange : py_range 1 (max_retries + 1) = []).
  { unfold py_range. by replace (Z.to_nat (max_retries + 1 - 1)) with 0%nat by lia. }
  rewrite Hrange in Hrun. cbn in Hrun. done.
Qed.

(** Between two consecutive creation calls the loop sleeps exactly once, and
    never after the last one; with a budget of [max_retries >= 1] attempts
    it sleeps at most [max_retries - 1] times, 60 seconds at most each
    time. *)
Theorem create_loop_sleeps_between_attempts body (max_retries : Z) s :
  1 <= max_retries ->
  let created := create_loop body max_retries (py_range 1 (max_retries + 1)) 5 s in
  exists new,
    km_calls created.1 = km_calls s ++ new /\
    create_calls new = S (length (sleeps new)) /\
    last new = Some (CreatePod (km_namespace s) body) /\
    foldr Z.add 0 (sleeps new) <= 60 * (max_retries - 1).
Proof.
  intros Hbudget created.
  pose proof (create_loop_last_attempt body max_retries (py_range 1 (max_retries + 1)) 5 s
                (py_range_last max_retries Hbudget)) as Hnot.
  assert (Hlast : forall attempts backoff s0,
    (create_loop body max_retries attempts backoff s0).2 <> Ok None ->
    exists new0,
      km_calls (create_loop body max_retries attempts backoff s0).1 = km_calls s0 ++ new0 /\
      last new0 = Some (CreatePod (km_namespace s0) body)).
  { induction attempts as [|attempt attempts IH]; intros backoff s0; [done|].
    rewrite create_loop_cons. cbn zeta.
    destruct (create_namespaced_pod _ _ _) as [e' [pod|err]]; cbn [fst snd].
    - intros _. by eexists.
    - destruct (retryable_answer (Raise err) && (attempt <? max_retries)).
      + intros Hne. destruct (IH _ _ Hne) as (new0 & Hcalls & Hl).
        exists (CreatePod (km_namespace s0) body :: Sleep backoff :: new0).
        cbn in *. split; [by rewrite Hcalls, <- !app_assoc|].
        destruct new0; done.
      + intros _. by eexists. }
  destruct (Hlast _ _ _ Hnot) as (new0 & Hcalls0 & Hl).
  destruct (create_loop_run body max_retries (py_range 1 (max_retries + 1)) 5 s)
    as (new & Hcalls & _ & _ & _ & _ & _ & Hcount & Hchain & _ & Houtcome).
  fold created in Hcalls, Houtcome, Hnot, Hcalls0. cbn zeta in Houtcome.
  assert (new0 = new) as -> by (rewrite Hcalls in Hcalls0; by apply app_inv_head in Hcalls0).
  exists new. split; [done|].
  pose proof (create_answers_length (km_namespace s) body (create_calls new) (km_client s))
    as Hlen.
  assert (Hsleeps : create_calls new = S (length (sleeps new))).
  { destruct created.2 as [[pod|]|x]; [|done|].
    - destruct Houtcome as (retried & Heq & _ & ->).
      rewrite Heq, length_app in Hlen. cbn in Hlen. lia.
    - destruct Houtcome as (retried & e & Heq & _ & _ & ->).
      rewrite Heq, length_app in Hlen. cbn in Hlen. lia. }
  split; [done|]. split; [done|].
  pose proof (backoff_chain_bounds 5 (sleeps new) ltac:(lia) Hchain) as Hbounds.
  rewrite py_range_length in Hcount.
  assert (Hn : (length (sleeps new) <= Z.to_nat (max_retries - 1))%nat) by lia.
  clear - Hbounds Hn Hbudget.
  assert (Hsum : foldr Z.add 0 (sleeps new) <= 60 * Z.of_nat (length (sleeps new))).
  { induction Hbounds as [|d delays Hd _ IH]; cbn [foldr length] in *; [lia|].
    cbn beta in Hd. lia. }
  nia.
Qed.

End StartPodPaths.

Lemma start_pod_without_budget_witness :
  let s := sim_k8s_manager ∅ (mkSimApi ∅ [] ["Running"] 0 1 []) in
  (KubernetesManager_start_pod "p" "img" "sleep infinity" None None None 0 1200 s).2
  = Raise (RuntimeError "Exceeded retry limit (0) creating pod 'p'").
Proof.
  intros s.
  apply (start_pod_without_budget "p" "img" "sleep infinity" None None None 0 1200 s
           (ApiException 404 "ApiException(404 Not Found)")).
  - lia.
  - vm_compute. reflexivity.
  - reflexivity.
Defined.

Lemma create_loop_sleeps_between_attempts_witness :
  let s := sim_k8s_manager ∅ (mkSimApi ∅ [500; 503] [] 0 1 []) in
  let created :=
    create_loop (create_pod_spec "p" "img" "true" None None None) 3 (py_range 1 4) 5 s in
  exists new,
    km_calls created.1 = km_calls s ++ new /\
    create_calls new = S (length (sleeps new)).
Proof.
  intros s created.
  destruct (create_loop_sleeps_between_attempts
              (create_pod_spec "p" "img" "true" None None None) 3 s ltac:(lia))
    as (new & Hcalls & Hcount & _).
  by exists new.
Defined.

(** ** The local adapter: registry and output *)

Section LocalRegistry.
Context {E C : Type} `{DockerClient E C}.
Implicit Types (s : DockerManager E C).

(** [start_container] under a given name looks the name up first and issues
    at most one further call.  When it returns a handle, the handle is
    registered under the name, the other names are as before and nothing is
    printed; when it raises, the registry is as before and one line with the
    [repr] of the exception is printed before the exception goes on. *)
Theorem start_container_registry (image command name : string)
    (environment : option strdict) s :
  let run := DockerManager_start_container image command (Some name) environment s in
  (exists rest,
     dm_calls run.1 = dm_calls s ++ ContainersList name :: rest /\ (length rest <= 1)%nat) /\
  match run.2 with
  | Ok container =>
      dm_containers run.1 = <[name := container]> (dm_containers s) /\
      dm_stdout run.1 = dm_stdout s
  | Raise e =>
      dm_containers run.1 = dm_containers s /\
      dm_stdout run.1 = dm_stdout s ++ ["Container start error: " +:+ repr e]
  end.
Proof.
  intros run. pose proof (start_container_run image command name environment s) as Hrun.
  cbn zeta in Hrun. fold run in Hrun.
  destruct (containers_list name (dm_client s)).2 as [[|container l]|err].
  - destruct (containers_run _ _ _ _ _).2; rewrite Hrun; cbn;
      (split; [eexists; split; [done|cbn; lia]|done]).
  - destruct (negb _); [destruct (container_start _ _).2|]; rewrite Hrun; cbn;
      (split; [eexists; split; [done|cbn; lia]|done]).
  - rewrite Hrun. cbn. split; [eexists; split; [done|cbn; lia]|done].
Qed.

(** [stop_container] never raises, whatever the engine answers.  For a
    registered name it stops the container; when the stop raises, nothing
    more is called, one line with the [repr] of the exception is printed
    and the name stays registered; when the stop succeeds it removes the
    container; when the removal raises, one line is printed and the name
    stays registered; only when the removal succeeds is the name
    deregistered, and then nothing is printed. *)
Theorem stop_container_swallows_failures (container_name : string) s :
  let run := DockerManager_stop_container container_name s in
  run.2 = Ok tt /\
  match dm_containers s !! container_name with
  | None => run.1 = s
  | Some container =>
      let stopped := container_stop container (dm_client s) in
      match stopped.2 with
      | Raise e =>
          run.1 = mkDockerManager stopped.1 (dm_containers s)
                    (dm_calls s ++ [ContainerStop container])
                    (dm_stdout s ++ ["Container stop/delete error: " +:+ repr e])
      | Ok _ =>
          let removed := container_remove container stopped.1 in
          match removed.2 with
          | Raise e =>
              run.1 = mkDockerManager removed.1 (dm_containers s)
                        (dm_calls s ++ [ContainerStop container; ContainerRemove container])
                        (dm_stdout s ++ ["Container stop/delete error: " +:+ repr e])
          | Ok _ =>
              run.1 = mkDockerManager removed.1 (delete container_name (dm_containers s))
                        (dm_calls s ++ [ContainerStop container; ContainerRemove container])
                        (dm_stdout s)
          end
      end
  end.
Proof. apply stop_container_run. Qed.






End LocalRegistry.


(** A manager with two registered containers, one of which the engine no
    longer knows: its stop raises, and it is the one left in the registry. *)
Example close_keeps_failed_container :
  let a := mkSimContainer "a" "running" in
  let b := mkSimContainer "b" "running" in
  let s := mkDockerManager (mkSimDocker {[ "a" := "running" ]} [] [] 1 [])
             {[ "a" := a; "b" := b ]} [] [] in
  let run := DockerManager_close s in
  run.2 = Ok tt /\
  dm_containers run.1 = {[ "b" := b ]} /\
  dm_stdout run.1 = ["Container stop/delete error: NotFound(404)"] /\
  dm_calls run.1 = [ContainerStop a; ContainerRemove a; ContainerStop b; ClientClose].
Proof. vm_compute. done. Qed.

(** ** Cleaning up the pods *)

Section CleanupPods.
Context {E P : Type} `{CoreV1Api E P}.
Implicit Types (s : KubernetesManager E P).




End CleanupPods.

(** ** Copying a file into a pod *)

Section CopyRetries.
Context {E P : Type} `{PodFiles E}.
Implicit Types (st : KubernetesManager E P * list copy_call).

(** One round of the loop, started with the cursor at the beginning. *)
Lemma copy_loop_cons (pod_name dest_dir : string) (max_retries attempt : Z)
    (attempts : list Z) (retry_delay : Z) (archive : list N) st :
  copy_loop pod_name dest_dir max_retries (attempt :: attempts) retry_delay
    (mkBytesIO archive 0) st
  = let command := ["tar"; "xmf"; "-"; "-C"; dest_dir] in
    let answered := pod_write_stdin pod_name (km_namespace st.1) command archive
                      (km_client st.1) in
    let st1 : KubernetesManager E P * list copy_call :=
      (mkKubernetesManager (km_namespace st.1) (km_disable_proxy st.1) (km_pods st.1)
         answered.1 (km_environ st.1) (km_calls st.1),
       st.2 ++ [WriteStdin pod_name (km_namespace st.1) command archive]) in
    match answered.2 with
    | Ok _ => (st1, Ok tt)
    | Raise e =>
        if attempt <? max_retries - 1 then
          copy_loop pod_name dest_dir max_retries attempts (Z.min (retry_delay * 2) 60)
            (mkBytesIO archive 0) (st1.1, st1.2 ++ [CopySleep retry_delay])
        else (st1, Raise (LibExn e))
    end.
Proof.
  cbn [copy_loop]. unfold copy_log, copy_world, km_lift, km_world.
  unfold bind, get, modify. cbn [fst snd BytesIO_read bio_pos bio_buffer drop].
  destruct (pod_write_stdin _ _ _ _ _) as [e' [[]|err]]; cbn [fst snd]; [done|].
  destruct (attempt <? max_retries - 1); [|done].
  unfold BytesIO_seek. done.
Qed.

(** The run of the loop, in terms of the answers of the engine to the
    writes: every write before the last was answered by an exception and
    followed by a sleep; the loop ends at the first write that succeeds, or
    at the first failure at an attempt that is not below
    [max_retries - 1]. *)
Lemma copy_loop_run (pod_name dest_dir : string) (max_retries : Z)
    (attempts : list Z) (retry_delay : Z) (archive : list N) st :
  let run := copy_loop pod_name dest_dir max_retries attempts retry_delay
               (mkBytesIO archive 0) st in
  let command := ["tar"; "xmf"; "-"; "-C"; dest_dir] in
  let write := WriteStdin pod_name (km_namespace st.1) command archive in
  km_pods run.1.1 = km_pods st.1 /\
  km_environ run.1.1 = km_environ st.1 /\
  km_calls run.1.1 = km_calls st.1 /\
  km_namespace run.1.1 = km_namespace st.1 /\
  exists delays,
    backoff_chain retry_delay delays /\
    (length delays <= length attempts)%nat /\
    let answers :=
      write_answers pod_name (km_namespace st.1) command archive (S (length delays))
        (km_client st.1) in
    (forall i, (i < length delays)%nat -> exists e, answers !! i = Some (Raise e)) /\
    ((run.1.2 = st.2 ++ concat ((fun d => [write; CopySleep d]) <$> delays) ++ [write] /\
      (length delays < length attempts)%nat /\
      match run.2 with
      | Ok _ => answers !! length delays = Some (Ok tt)
      | Raise x =>
          exists e attempt,
            x = LibExn e /\ answers !! length delays = Some (Raise e) /\
            attempts !! length delays = Some attempt /\ max_retries - 1 <= attempt
      end) \/
     (run.1.2 = st.2 ++ concat ((fun d => [write; CopySleep d]) <$> delays) /\
      length delays = length attempts /\ run.2 = Ok tt /\
      Forall (fun attempt => attempt < max_retries - 1) attempts)).
Proof.
  revert retry_delay st. induction attempts as [|attempt attempts IH];
    intros retry_delay st run command write; subst run.
  - cbn. repeat split; try done. exists []. split; [done|]. split; [done|].
    split; [intros i Hi; cbn in Hi; lia|]. right. by rewrite app_nil_r.
  - rewrite copy_loop_cons. cbn zeta. fold command.
    destruct (pod_write_stdin pod_name (km_namespace st.1) command archive (km_client st.1))
      as [e' [[]|err]] eqn:Hanswer; cbn [fst snd].
    + repeat split; try done. exists []. split; [done|]. split; [cbn; lia|].
      split; [intros i Hi; cbn in Hi; lia|].
      left. split; [done|]. split; [cbn; lia|]. cbn. by rewrite Hanswer.
    + destruct (attempt <? max_retries - 1) eqn:Hless.
      * match goal with |- context [copy_loop _ _ _ _ ?d _ ?st0] =>
          destruct (IH d st0)
            as (Hpods & Henv & Hcalls & Hns & delays & Hchain & Hlen & Hfailed & Hrun)
        end.
        cbn [fst snd km_pods km_environ km_calls km_namespace km_client] in *.
        fold command in Hfailed, Hrun.
        repeat split; try done.
        exists (retry_delay :: delays). split; [done|]. split; [cbn; lia|].
        cbn [length]. cbn [write_answers]. rewrite Hanswer. cbn [fst snd].
        split.
        { intros [|i] Hi; [by eexists|]. cbn [lookup list_lookup]. apply Hfailed. lia. }
        destruct Hrun as [(Htrace & Hlt & Hres)|(Htrace & Heq & Hres & Hall)].
        -- left. split; [by rewrite Htrace, <- !app_assoc|]. split; [cbn; lia|].
           exact Hres.
        -- right. split; [by rewrite Htrace, <- !app_assoc|]. split; [cbn; lia|].
           split; [done|]. constructor; [by apply Z.ltb_lt|done].
      * repeat split; try done. exists []. split; [done|]. split; [cbn; lia|].
        split; [intros i Hi; cbn in Hi; lia|].
        left. split; [done|]. split; [cbn; lia|]. cbn. rewrite Hanswer.
        exists err, attempt. split; [done|]. split; [done|]. split; [done|].
        apply Z.ltb_ge in Hless. lia.
Qed.

(** What the scope adds around a body that keeps a second component. *)
Lemma with_proxy_pair_run {X A T} (flag : bool)
    (body : M X (KubernetesManager E P * T) A) (st : KubernetesManager E P * T) :
  let inner := body (set_environ (scope_entry_environ flag (km_environ st.1)) st) in
  let run := with_ProxyManager flag body st in
  run.2 = inner.2 /\
  run.1.2 = inner.1.2 /\
  km_pods run.1.1 = km_pods inner.1.1 /\
  km_calls run.1.1 = km_calls inner.1.1 /\
  (km_environ inner.1.1 = scope_entry_environ flag (km_environ st.1) ->
   km_environ run.1.1 = km_environ st.1).
Proof.
  unfold with_ProxyManager, scope_entry_environ.
  cbn [get_environ set_environ pair_HasEnviron KubernetesManager_HasEnviron fst snd].
  destruct (body _) as [[s' t'] r]. cbn [fst snd km_environ km_pods km_calls].
  repeat split; try done. intros ->.
  pose proof (proxy_scope_identity (X := X) (A := unit) flag (km_environ st.1)
                (ret tt) eq_refl) as Hid.
  unfold with_ProxyManager in Hid. cbn in Hid. exact Hid.
Qed.

(** [copy_to_pod] builds the archive once, outside the retry loop: an
    exception of [tarfile] goes straight to the caller.  Otherwise it writes
    the whole archive (the cursor is rewound before every retry) to
    [tar xmf - -C dirname(dest_path)], at most five times.  Every write but
    the last was answered by an exception, whatever it is, and is followed
    by a sleep, of 5, 10, 20 and 40 seconds in turn.  The method returns
    when the last write was answered without an exception, and raises only
    after a fifth write, with the exception that answered it.  The registry,
    the calls of the manager and the environment are left as they were. *)
Theorem copy_to_pod_attempts (pod_name src_path dest_path : string) st :
  let run := KubernetesManager_copy_to_pod pod_name src_path dest_path st in
  let archived := tar_add src_path (os_path_basename dest_path) (km_client st.1) in
  let command := ["tar"; "xmf"; "-"; "-C"; os_path_dirname dest_path] in
  let write archive := WriteStdin pod_name (km_namespace st.1) command archive in
  km_pods run.1.1 = km_pods st.1 /\
  km_calls run.1.1 = km_calls st.1 /\
  km_environ run.1.1 = km_environ st.1 /\
  match archived.2 with
  | Raise e => run.2 = Raise (LibExn e) /\ run.1.2 = st.2
  | Ok archive =>
      exists retries : nat,
        (retries <= 4)%nat /\
        run.1.2
        = st.2 ++ concat ((fun d => [write archive; CopySleep d])
                            <$> take retries [5; 10; 20; 40])
               ++ [write archive] /\
        let answers :=
          write_answers pod_name (km_namespace st.1) command archive (S retries)
            archived.1 in
        (forall i, (i < retries)%nat -> exists e, answers !! i = Some (Raise e)) /\
        match run.2 with
        | Ok _ => answers !! retries = Some (Ok tt)
        | Raise x =>
            retries = 4%nat /\
            exists e, answers !! retries = Some (Raise e) /\ x = LibExn e
        end
  end.
Proof.
  intros run archived command write. subst run. unfold KubernetesManager_copy_to_pod.
  match goal with |- context [with_ProxyManager ?flag ?b st] =>
    destruct (with_proxy_pair_run flag b st) as (-> & -> & -> & -> & Henviron);
    remember (b (set_environ (scope_entry_environ flag (km_environ st.1)) st))
      as inner eqn:Hinner
  end.
  unfold copy_world, km_lift, km_world in Hinner. unfold bind at 1 in Hinner.
  cbn [fst snd km_client km_namespace km_disable_proxy km_pods km_environ km_calls
       get_environ set_environ pair_HasEnviron KubernetesManager_HasEnviron] in Hinner.
  fold archived in Hinner. destruct archived as [e1 [archive|err]]; cbn [fst snd] in *.
  - unfold BytesIO_seek in Hinner. cbn [bio_buffer] in Hinner.
    match type of Hinner with _ = copy_loop ?a ?b ?c ?d ?e _ ?st0 =>
      destruct (copy_loop_run a b c d e archive st0)
        as (Hpods & Henv & Hcalls & Hns & delays & Hchain & Hlen & Hfailed & Hrun)
    end.
    rewrite <- Hinner in *.
    cbn [fst snd km_client km_namespace km_disable_proxy km_pods km_environ km_calls] in *.
    fold command in Hfailed, Hrun.
    split; [done|]. split; [done|]. split; [apply Henviron; exact Henv|].
    rewrite !py_range_length in Hlen, Hrun. change (Z.to_nat (5 - 0)) with 5%nat in Hlen, Hrun.
    assert (Hdelays : exists retries, (retries <= 5)%nat /\ retries = length delays /\
                                      delays = take retries [5; 10; 20; 40; 60]).
    { exists (length delays). split; [done|]. split; [done|].
      do 6 (destruct delays as [|? delays]; [by repeat destruct Hchain as [-> Hchain]|]).
      cbn in Hlen. lia. }
    destruct Hdelays as (retries & Hretries & Hlength & Hdelays).
    rewrite <- Hlength in Hfailed, Hrun.
    destruct Hrun as [(Htrace & Hlt & Hres)|(Htrace & Heq & Hres & Hall)].
    + exists retries. split; [lia|]. split.
      { rewrite Htrace, Hdelays. do 5 (destruct retries as [|retries]; [done|]). lia. }
      split; [exact Hfailed|].
      destruct inner.2 as [[]|x]; [exact Hres|].
      destruct Hres as (e & a & -> & Hanswer & Hat & Hge).
      split; [|by exists e].
      do 4 (destruct retries as [|retries]; [cbn in Hat; injection Hat as <-; lia|]).
      lia.
    + exfalso. clear - Hall. cbn in Hall.
      do 4 (apply Forall_cons in Hall as [_ Hall]). apply Forall_cons in Hall as [Hall _].
      lia.
  - subst inner. cbn. split; [done|]. split; [done|]. split; [by apply Henviron|done].
Qed.

End CopyRetries.

(** ** The pod specification *)

(** The specification that [create_pod_spec] builds always has one
    container, run as [/bin/sh -c command] with stdin and a terminal, the
    restart policy Never and the one fixed toleration.  The resources are
    the defaults updated key by key with those of the caller (so a caller
    who gives ["requests"] replaces the default requests whole), and the
    node selector is present only when the caller gives a non-empty one. *)
Theorem create_pod_spec_shape (name image command : string)
    (environment : option strdict)
    (resources : option (gmap string (gmap string string)))
    (node_selector : option strdict) :
  let manifest :=
    create_pod_spec name image command environment resources node_selector in
  pm_apiVersion manifest = "v1" /\
  pm_kind manifest = "Pod" /\
  pm_metadata_name manifest = name /\
  ps_restartPolicy (pm_spec manifest) = "Never" /\
  ps_tolerations (pm_spec manifest)
  = [mkToleration "NoSchedule" "rl-training-only" "Equal" "true"] /\
  ps_nodeSelector (pm_spec manifest)
  = match node_selector with
    | Some selector => if decide (selector = ∅) then None else Some selector
    | None => None
    end /\
  exists container,
    ps_containers (pm_spec manifest) = [container] /\
    cs_name container = name /\ cs_image container = image /\
    cs_command container = ["/bin/sh"; "-c"] /\ cs_args container = [command] /\
    cs_stdin container = true /\ cs_tty container = true /\
    forall k,
      cs_resources container !! k
      = match default ∅ resources !! k with
        | Some value => Some value
        | None =>
            if decide (k = "requests")
            then Some {[ "cpu" := "1"; "memory" := "1Gi" ]}
            else None
        end.
Proof.
  intros manifest. subst manifest. unfold create_pod_spec. cbn zeta.
  repeat split.
  - by destruct node_selector as [selector|]; [case_decide|].
  - by destruct node_selector as [selector|]; [case_decide|].
  - destruct node_selector as [selector|]; [case_decide|]; done.
  - eexists. split; [by destruct node_selector as [selector|]; [case_decide|]|].
    repeat split. intros k. cbn.
    assert (Hres :
      match resources with
      | Some resources0 =>
          if decide (resources0 = ∅)
          then ({[ "requests" := {[ "cpu" := "1"; "memory" := "1Gi" ]} ]}
                : gmap string (gmap string string))
          else resources0 ∪ {[ "requests" := {[ "cpu" := "1"; "memory" := "1Gi" ]} ]}
      | None => {[ "requests" := {[ "cpu" := "1"; "memory" := "1Gi" ]} ]}
      end = default ∅ resources ∪ {[ "requests" := {[ "cpu" := "1"; "memory" := "1Gi" ]} ]}).
    { destruct resources as [user|]; cbn.
      - case_decide as Hempty; [|done]. by rewrite Hempty, (left_id_L ∅ (∪)).
      - by rewrite (left_id_L ∅ (∪)). }
    rewrite Hres, lookup_union.
    destruct (default ∅ resources !! k) as [value|]; cbn.
    + by destruct (_ !! k).
    + rewrite (left_id_L None _). case_decide as Hk.
      * subst k. apply lookup_singleton_eq.
      * by apply lookup_singleton_ne.
Qed.

(** ** The generated names *)

(** A generated name contains neither ['/'] nor [':'], whatever the image
    reference, and is 11 characters longer than the image reference. *)
Theorem container_name_is_safe (process_id : Z) (current_time image_name : string) :
  let name := get_container_name process_id current_time image_name in
  "/"%char ∉ String.list_ascii_of_string name /\
  ":"%char ∉ String.list_ascii_of_string name /\
  String.length name = (String.length image_name + 11)%nat.
Proof.
  intros name. subst name. unfold get_container_name. cbn zeta.
  set (digest := hexdigest _).
  destruct (hexdigest_chars (sha256 (encode (current_time +:+ pretty process_id))))
    as [Hlen Hhex]. fold digest in Hlen, Hhex.
  rewrite string_length_list, !list_ascii_app, sanitized_image_chars, str_take_list.
  assert (Hsafe : forall c : ascii,
            c ∈ (sanitize_char <$> String.list_ascii_of_string image_name)
                ++ String.list_ascii_of_string "-"
                ++ take 10 (String.list_ascii_of_string digest) ->
            c <> "/"%char /\ c <> ":"%char).
  { intros c [Hc|[Hc|Hc]%elem_of_app]%elem_of_app.
    - apply list_elem_of_fmap in Hc as (c0 & -> & _). unfold sanitize_char.
      destruct (Ascii.eqb_spec c0 "/"%char) as [->|Hslash]; [done|]. cbn [orb].
      destruct (Ascii.eqb_spec c0 ":"%char) as [->|Hcolon]; done.
    - apply list_elem_of_singleton in Hc as ->. done.
    - apply elem_of_take in Hc as (i & Hc & _).
      rewrite Forall_lookup in Hhex. specialize (Hhex _ _ Hc). cbn beta in Hhex.
      split; intros ->; done. }
  split; [|split].
  - intros Hin. by destruct (Hsafe _ Hin).
  - intros Hin. by destruct (Hsafe _ Hin).
  - rewrite !length_app, length_fmap, length_take, <- string_length_list, Hlen.
    change (length (String.list_ascii_of_string "-")) with 1%nat. lia.
Qed.

(** ** The output drained from an exec stream *)

(** The output is what the rounds of the polling loop found, round after
    round, stdout before stderr within a round: rounds that found nothing
    add nothing. *)
Theorem drained_output_order (rounds : list (string * string)) :
  drained_output rounds
  = foldr (fun round rest => round.1 +:+ round.2 +:+ rest) "" rounds.
Proof. apply drained_output_stream. Qed.
